(** * POSIX semaphores over Win32 semaphore objects: a model of [src/sem.c]

    The file embeds the functions of [sem.c] as state-passing programs over
    an explicit process/kernel state and proves the properties the
    specification states about them.

    Layout:
    - machine integers and platform constants;
    - the state ([world]) and the monad of C calls ([M]);
    - the C library and the Win32 calls [sem.c] makes;
    - the helpers of [misc.h];
    - the functions of [sem.c];
    - the properties. *)

From Stdlib Require Import ZArith Lia Ascii String List.
From stdpp Require Import gmap strings list fin_maps.

Local Open Scope Z_scope.

(** ** Machine integers

    [unsigned int], [DWORD] and [int]/[LONG] are 32 bits wide on every
    Windows target; a conversion keeps the value modulo [2^32]. *)

Definition UINT_MAX : Z := 4294967295.
Definition INT_MAX : Z := 2147483647.

(** [(unsigned int) z] *)
Definition to_uint (z : Z) : Z := z mod 4294967296.

(** [(int) z], [(LONG) z] *)
Definition to_int (z : Z) : Z := (z + 2147483648) mod 4294967296 - 2147483648.

(** ** Constants of the platform headers *)

Definition NULL : Z := 0.

(* winbase.h / winerror.h *)
Definition WAIT_OBJECT_0 : Z := 0.
Definition WAIT_TIMEOUT : Z := 258.
Definition WAIT_FAILED : Z := 4294967295.
Definition INFINITE : Z := 4294967295.
Definition ERROR_FILE_NOT_FOUND : Z := 2.
Definition ERROR_INVALID_HANDLE : Z := 6.
Definition ERROR_INVALID_PARAMETER : Z := 87.
Definition ERROR_ALREADY_EXISTS : Z := 183.
Definition ERROR_SEM_NOT_FOUND : Z := 187.
Definition ERROR_TOO_MANY_POSTS : Z := 298.
Definition ERROR_NO_SYSTEM_RESOURCES : Z := 1450.
Definition ERROR_ACCESS_DENIED : Z := 5.
(* winnt.h: the access rights of a semaphore handle *)
Definition SEMAPHORE_MODIFY_STATE : Z := 2.
Definition SYNCHRONIZE : Z := 1048576.
Definition SEMAPHORE_ALL_ACCESS : Z := 2031619.
Definition FALSE : Z := 0.

(** The [errno] codes [sem.c] stores.  Only their being distinct matters,
    so they are the constructors of an enumeration. *)
Inductive errno_code : Set :=
  | EPERM | ENOENT | ENOMEM | EEXIST | EINVAL | ENOSPC | ETIMEDOUT.

(** ** The state

    A kernel semaphore object: its count, the maximum it was created with,
    the name it is registered under (if any) and the number of open handles
    that keep it alive, in this and in other processes. *)
Record ksem : Set := Ksem {
  k_count : Z;
  k_max : Z;
  k_name : option string;
  k_refs : nat
}.

(** A memory cell: the word it holds, and whether it is a block handed out
    by [calloc] (and so may be passed to [free]) or a cell of the caller. *)
Record cell : Set := Cell {
  c_heap : bool;
  c_val : Z
}.

(** An entry of the handle table: the object the handle stands for and the
    access rights it was opened with.  Releasing needs
    [SEMAPHORE_MODIFY_STATE], waiting needs [SYNCHRONIZE]. *)
Record hentry : Set := Handle {
  h_object : Z;
  h_access : Z
}.

(** What the environment makes of the requests that can fail for lack of a
    resource or of a right.  [open_refused] lists the object names whose
    opening the kernel refuses, with the code [GetLastError] then reports
    (access denied, a name held by another kind of object, ...). *)
Record environment : Type := Env {
  heap_exhausted : bool;
  kernel_exhausted : bool;
  open_refused : gmap string Z
}.

(** The process and the kernel objects it can reach.
    - [mem]: the memory of the process, one cell per pointer-sized word;
      [arch_sem_t] is the one-field structure [{ HANDLE handle; }] and takes
      one cell;
    - [handles]: the handle table of the process, handle to object id and
      access rights;
    - [objects], [names]: the kernel's semaphore objects and its object
      namespace;
    - [errno], [last_error]: the two thread-local error cells;
    - [now]: the clock, in milliseconds since the epoch. *)
Record world : Type := World {
  mem : gmap Z cell;
  handles : gmap Z hentry;
  objects : gmap Z ksem;
  names : gmap string Z;
  errno : option errno_code;
  last_error : Z;
  now : Z;
  env : environment
}.

Definition with_mem (m : gmap Z cell) (w : world) : world :=
  World m (handles w) (objects w) (names w) (errno w) (last_error w) (now w) (env w).

Definition with_kernel (hs : gmap Z hentry) (os : gmap Z ksem) (ns : gmap string Z)
    (w : world) : world :=
  World (mem w) hs os ns (errno w) (last_error w) (now w) (env w).

Definition with_errno (e : errno_code) (w : world) : world :=
  World (mem w) (handles w) (objects w) (names w) (Some e) (last_error w) (now w) (env w).

Definition with_last_error (e : Z) (w : world) : world :=
  World (mem w) (handles w) (objects w) (names w) (errno w) e (now w) (env w).

Definition with_now (t : Z) (w : world) : world :=
  World (mem w) (handles w) (objects w) (names w) (errno w) (last_error w) t (env w).

(** ** The monad of C calls

    A call returns a value in a new state, never returns because the thread
    waits for a post that no one makes, or has no defined behaviour (an
    access to memory the program does not own). *)
Inductive outcome (A : Type) : Type :=
  | Ret (a : A) (w : world)
  | Blocked
  | Undefined.
Arguments Ret {A} a w.
Arguments Blocked {A}.
Arguments Undefined {A}.

Definition M (A : Type) : Type := world -> outcome A.

Definition ret {A} (a : A) : M A := fun w => Ret a w.

Definition bind {A B} (c : M A) (k : A -> M B) : M B :=
  fun w => match c w with
           | Ret a w' => k a w'
           | Blocked => Blocked
           | Undefined => Undefined
           end.

Declare Scope c_scope.
Delimit Scope c_scope with C.
Notation "'let*' x ':=' c 'in' k" := (bind c (fun x => k))
  (at level 10, x name, c at level 100, k at level 200) : c_scope.
Notation "'run' c 'in' k" := (bind c (fun _ => k))
  (at level 10, c at level 100, k at level 200) : c_scope.
Local Open Scope c_scope.

(** The smallest positive key above every key of [m]: the next address or
    handle or object id handed out. *)
Definition fresh_key {V} (m : gmap Z V) : Z :=
  1 + map_fold (fun k _ acc => Z.max k acc) 0 m.

Definition lift {A} (o : option A) : M A :=
  fun w => match o with Some a => Ret a w | None => Undefined end.

(** ** The C library *)

(** [calloc(1, sizeof(arch_sem_t))]: a fresh zeroed cell, or [NULL] when no
    memory is left. *)
Definition calloc : M Z := fun w =>
  if heap_exhausted (env w) then Ret NULL w
  else
    let p := fresh_key (mem w) in
    Ret p (with_mem (<[p := Cell true 0]> (mem w)) w).

(** [free(p)]: defined on [NULL] and on live [calloc] blocks only. *)
Definition free (p : Z) : M unit := fun w =>
  if p =? NULL then Ret tt w
  else
    match mem w !! p with
    | Some (Cell true _) => Ret tt (with_mem (delete p (mem w)) w)
    | _ => Undefined
    end.

(** Reading and writing the word at address [p]. *)
Definition load (p : Z) : M Z := fun w =>
  match mem w !! p with
  | Some c => Ret (c_val c) w
  | None => Undefined
  end.

Definition store (p v : Z) : M unit := fun w =>
  match mem w !! p with
  | Some c => Ret tt (with_mem (<[p := Cell (c_heap c) v]> (mem w)) w)
  | None => Undefined
  end.

(** The NUL character. *)
Definition NUL : ascii := Ascii.zero.

(** [strlen]: the number of characters before the first NUL.  The string
    [s] stands for the memory [name] points to, which holds the characters
    of [s] and then a NUL. *)
Fixpoint strlen (s : string) : nat :=
  match s with
  | EmptyString => O
  | String c s' => if Ascii.eqb c NUL then O else S (strlen s')
  end.

(** The bytes [memcpy] reads when it copies [n] bytes from a C string: the
    string in memory ends with its NUL, and nothing is known behind it. *)
Definition source_bytes (s : string) (n : Z) : option (list ascii) :=
  let bytes := list_ascii_of_string s ++ [NUL] in
  if (0 <=? n) && (n <=? Z.of_nat (length bytes)) then Some (take (Z.to_nat n) bytes)
  else None.

(** A [char] array on the stack.  A cell holds no character until it is
    written. *)
Definition array_write (a : list (option ascii)) (off : Z) (src : list ascii)
    : option (list (option ascii)) :=
  if (0 <=? off) && (off + Z.of_nat (length src) <=? Z.of_nat (length a)) then
    Some (take (Z.to_nat off) a ++ (Some <$> src)
          ++ drop (Z.to_nat off + length src) a)
  else None.

(** [memcpy(a + off, s, n)] for a C string [s]. *)
Definition memcpy (a : list (option ascii)) (off : Z) (s : string) (n : Z)
    : option (list (option ascii)) :=
  match source_bytes s n with
  | Some bytes => array_write a off bytes
  | None => None
  end.

(** Reading the C string an array holds: the characters before the first
    NUL.  Running into a cell never written, or off the array, is undefined. *)
Fixpoint c_string (a : list (option ascii)) : option string :=
  match a with
  | Some c :: a' =>
      if Ascii.eqb c NUL then Some EmptyString
      else match c_string a' with
           | Some s => Some (String c s)
           | None => None
           end
  | _ => None
  end.

(** ** The Win32 calls *)

Definition GetLastError : M Z := fun w => Ret (last_error w) w.

(** The semaphore object registered under [n], with its id. *)
Definition named_object (n : string) (w : world) : option (Z * ksem) :=
  match names w !! n with
  | Some id =>
      match objects w !! id with
      | Some o => Some (id, o)
      | None => None
      end
  | None => None
  end.

(** A new handle of the process on the object [id], with the rights
    [access]; the object gains a reference. *)
Definition open_object (id : Z) (o : ksem) (access : Z) (w : world) : Z * world :=
  let h := fresh_key (handles w) in
  (h, with_kernel (<[h := Handle id access]> (handles w))
        (<[id := Ksem (k_count o) (k_max o) (k_name o) (S (k_refs o))]> (objects w))
        (names w) w).

(** [OpenSemaphoreA(access, inherit, lpName)]: a handle on the object of
    that name with the rights asked for, or [NULL] with the reason in the
    last-error cell. *)
Definition OpenSemaphoreA (dwDesiredAccess bInheritHandle : Z) (lpName : string) : M Z :=
  fun w =>
    match open_refused (env w) !! lpName with
    | Some e => Ret NULL (with_last_error e w)
    | None =>
        match named_object lpName w with
        | Some (id, o) =>
            let '(h, w') := open_object id o dwDesiredAccess w in Ret h w'
        | None => Ret NULL (with_last_error ERROR_FILE_NOT_FOUND w)
        end
    end.

(** [CreateSemaphoreA(attributes, lInitialCount, lMaximumCount, lpName)]:
    a handle with all access rights on a new object with that count; on the
    existing object when the name is taken (the count is then left alone);
    [NULL] when the counts are not [0 <= initial <= maximum], [0 < maximum],
    or the kernel has nothing left. *)
Definition CreateSemaphoreA (lpSemaphoreAttributes lInitialCount lMaximumCount : Z)
    (lpName : option string) : M Z :=
  fun w =>
    if kernel_exhausted (env w) then
      Ret NULL (with_last_error ERROR_NO_SYSTEM_RESOURCES w)
    else if (lInitialCount <? 0) || (lMaximumCount <=? 0)
            || (lMaximumCount <? lInitialCount) then
      Ret NULL (with_last_error ERROR_INVALID_PARAMETER w)
    else
      let create :=
        let id := fresh_key (objects w) in
        let h := fresh_key (handles w) in
        Ret h (with_kernel (<[h := Handle id SEMAPHORE_ALL_ACCESS]> (handles w))
                 (<[id := Ksem lInitialCount lMaximumCount lpName 1]> (objects w))
                 (match lpName with
                  | Some n => <[n := id]> (names w)
                  | None => names w
                  end) w) in
      match lpName with
      | Some n =>
          match open_refused (env w) !! n with
          | Some e => Ret NULL (with_last_error e w)
          | None =>
              match named_object n w with
              | Some (id, o) =>
                  let '(h, w') := open_object id o SEMAPHORE_ALL_ACCESS w in
                  Ret h (with_last_error ERROR_ALREADY_EXISTS w')
              | None => create
              end
          end
      | None => create
      end.

(** [ReleaseSemaphore(hSemaphore, lReleaseCount, NULL)]: adds to the count,
    unless that would pass the maximum; nonzero on success.  The handle must
    have the [SEMAPHORE_MODIFY_STATE] right. *)
Definition ReleaseSemaphore (hSemaphore lReleaseCount lpPreviousCount : Z) : M Z :=
  fun w =>
    match handles w !! hSemaphore with
    | Some (Handle id access) =>
        if Z.land access SEMAPHORE_MODIFY_STATE =? 0 then
          Ret 0 (with_last_error ERROR_ACCESS_DENIED w)
        else
          match objects w !! id with
          | Some o =>
              if (lReleaseCount <=? 0) || (k_max o - k_count o <? lReleaseCount) then
                Ret 0 (with_last_error ERROR_TOO_MANY_POSTS w)
              else
                Ret 1 (with_kernel (handles w)
                         (<[id := Ksem (k_count o + lReleaseCount) (k_max o)
                                    (k_name o) (k_refs o)]> (objects w))
                         (names w) w)
          | None => Ret 0 (with_last_error ERROR_INVALID_HANDLE w)
          end
    | None => Ret 0 (with_last_error ERROR_INVALID_HANDLE w)
    end.

(** [WaitForSingleObject(hHandle, dwMilliseconds)] on a semaphore handle.
    The handle must have the [SYNCHRONIZE] right, or the wait fails.  A
    positive count is taken at once.  On a zero count the call gives up
    after [dwMilliseconds], and with [INFINITE] it never returns: no other
    thread is there to post. *)
Definition WaitForSingleObject (hHandle dwMilliseconds : Z) : M Z :=
  fun w =>
    match handles w !! hHandle with
    | Some (Handle id access) =>
        if Z.land access SYNCHRONIZE =? 0 then
          Ret WAIT_FAILED (with_last_error ERROR_ACCESS_DENIED w)
        else
          match objects w !! id with
          | Some o =>
              if 0 <? k_count o then
                Ret WAIT_OBJECT_0
                  (with_kernel (handles w)
                     (<[id := Ksem (k_count o - 1) (k_max o) (k_name o) (k_refs o)]>
                        (objects w))
                     (names w) w)
              else if dwMilliseconds =? INFINITE then Blocked
              else Ret WAIT_TIMEOUT (with_now (now w + dwMilliseconds) w)
          | None => Ret WAIT_FAILED (with_last_error ERROR_INVALID_HANDLE w)
          end
    | None => Ret WAIT_FAILED (with_last_error ERROR_INVALID_HANDLE w)
    end.

(** [CloseHandle(hObject)]: drops the handle; the object goes, and its name
    with it, when its last handle is closed.  Nonzero on success. *)
Definition CloseHandle (hObject : Z) : M Z :=
  fun w =>
    match handles w !! hObject with
    | Some (Handle id _) =>
        let hs := delete hObject (handles w) in
        match objects w !! id with
        | Some o =>
            match k_refs o with
            | S (S n) =>
                Ret 1 (with_kernel hs
                         (<[id := Ksem (k_count o) (k_max o) (k_name o) (S n)]>
                            (objects w))
                         (names w) w)
            | _ =>
                Ret 1 (with_kernel hs (delete id (objects w))
                         (match k_name o with
                          | Some n => delete n (names w)
                          | None => names w
                          end) w)
            end
        | None => Ret 1 (with_kernel hs (objects w) (names w) w)
        end
    | None => Ret 0 (with_last_error ERROR_INVALID_HANDLE w)
    end.

(** ** The helpers of [misc.h] *)

(** Modelled from the spec: [set_errno] is declared in [misc.h], which is
    not among the sources.  Section 6 of the specification: it records the
    code for the calling thread and returns the failure value of
    status-returning operations, [-1]. *)
Definition set_errno (code : errno_code) : M Z :=
  fun w => Ret (-1) (with_errno code w).

(** [struct timespec] *)
Record timespec : Set := Timespec {
  tv_sec : Z;
  tv_nsec : Z
}.

(** The deadline in milliseconds since the epoch. *)
Definition deadline_ms (ts : timespec) : Z :=
  tv_sec ts * 1000 + tv_nsec ts / 1000000.

(** Modelled from the spec: [arch_rel_time_in_ms] is declared in [misc.h],
    which is not among the sources.  Section 6 of the specification: it
    converts an absolute deadline into a relative millisecond duration,
    clamping negative results to zero; section 4.1:
    duration = max(0, deadline - now). *)
Definition arch_rel_time_in_ms (abs_timeout : timespec) : M Z :=
  fun w => Ret (Z.max 0 (deadline_ms abs_timeout - now w)) w.

(** ** Example states

    Concrete values of the constants and small states, on which the
    functions can be run. *)
Module Example.

(** The values of the constants in the MinGW headers: [INT_MAX], [0],
    [_O_CREAT] and [_O_EXCL]. *)
Definition SEM_VALUE_MAX : Z := 2147483647.
Definition PTHREAD_PROCESS_PRIVATE : Z := 0.
Definition O_CREAT : Z := 256.
Definition O_EXCL : Z := 1024.

Definition plenty : environment := Env false false ∅.

(** A process that owns the cell at address 100 and has no semaphore. *)
Definition w_empty : world :=
  World {[ 100 := Cell false 0 ]} ∅ ∅ ∅ None 0 1000 plenty.

(** The same when another process holds a semaphore named [/s], of
    count 5. *)
Definition w_named : world :=
  World {[ 100 := Cell false 0 ]} ∅
    {[ 1 := Ksem 5 2147483647 (Some "Global\/s") 1 ]}
    {[ "Global\/s" := 1 ]} None 0 1000 plenty.

(** The same as [w_empty] when the kernel has nothing left to give. *)
Definition w_exhausted : world :=
  World {[ 100 := Cell false 0 ]} ∅ ∅ ∅ None 0 1000 (Env false true ∅).

(** A process that holds the handle 101 on a semaphore of count 0. *)
Definition w_zero : world :=
  World {[ 100 := Cell false 101; 101 := Cell true 1 ]}
    {[ 1 := Handle 1 SEMAPHORE_ALL_ACCESS ]}
    {[ 1 := Ksem 0 2147483647 None 1 ]} ∅ None 0 1000 plenty.

(** The same with a count of 2. *)
Definition w_two : world :=
  World {[ 100 := Cell false 101; 101 := Cell true 1 ]}
    {[ 1 := Handle 1 SEMAPHORE_ALL_ACCESS ]}
    {[ 1 := Ksem 2 2147483647 None 1 ]} ∅ None 0 1000 plenty.

End Example.

(** ** The functions of [sem.c] *)

Section Sem.

(** The constants [sem.c] takes from headers that are not among the
    sources: [semaphore.h], [pthread.h] and [fcntl.h]. *)
Variable SEM_VALUE_MAX : Z.
Variable PTHREAD_PROCESS_PRIVATE : Z.
Variable O_CREAT : Z.
Variable O_EXCL : Z.

(** [SEM_VALUE_MAX] is a positive [int]: [sem.c] hands it to
    [CreateSemaphore] as the [LONG] maximum count. *)
Hypothesis SEM_VALUE_MAX_int : 0 < SEM_VALUE_MAX <= INT_MAX.

(** [sem_init(sem, pshared, value)].  [sem] is the address of the caller's
    [sem_t]; the new [arch_sem_t] pointer is stored there on success. *)
Definition sem_init (sem pshared value : Z) : M Z :=
  if (sem =? NULL) || (to_uint SEM_VALUE_MAX <? value) then set_errno EINVAL
  else if negb (pshared =? PTHREAD_PROCESS_PRIVATE) then set_errno EPERM
  else
    let* pv := calloc in
    if pv =? NULL then set_errno ENOMEM
    else
      let* h := CreateSemaphoreA NULL (to_int value) (to_int SEM_VALUE_MAX) None in
      run store pv h in
      if h =? NULL then
        run free pv in
        set_errno ENOSPC
      else
        run store sem pv in
        ret 0.

(** [sem_destroy(sem)].  [pv] is [sem] itself, cast, so the last
    assignment, [*sem = NULL], goes to the block that was just freed. *)
Definition sem_destroy (sem : Z) : M Z :=
  let pv := sem in
  if pv =? NULL then set_errno EINVAL
  else
    let* h := load pv in
    let* closed := CloseHandle h in
    if closed =? 0 then set_errno EINVAL
    else
      run free pv in
      run store sem NULL in
      ret 0.

(** [sem_post(sem)].  Here and in the waits [pv] is [sem] itself, cast:
    the handle is read from the block [sem] points to. *)
Definition sem_post (sem : Z) : M Z :=
  let pv := sem in
  if (sem =? NULL) || (pv =? NULL) then set_errno EINVAL
  else
    let* h := load pv in
    let* released := ReleaseSemaphore h 1 NULL in
    if released =? 0 then set_errno EINVAL
    else ret 0.

(** [sem_wait(sem)] *)
Definition sem_wait (sem : Z) : M Z :=
  let pv := sem in
  if (sem =? NULL) || (pv =? NULL) then set_errno EINVAL
  else
    let* h := load pv in
    let* rc := WaitForSingleObject h INFINITE in
    if negb (rc =? WAIT_OBJECT_0) then set_errno EPERM
    else ret 0.

(** [sem_trywait(sem)] *)
Definition sem_trywait (sem : Z) : M Z :=
  let pv := sem in
  if (sem =? NULL) || (pv =? NULL) then set_errno EINVAL
  else
    let* h := load pv in
    let* rc := WaitForSingleObject h 0 in
    if rc =? WAIT_OBJECT_0 then ret 0
    else if rc =? WAIT_TIMEOUT then set_errno ETIMEDOUT
    else set_errno EPERM.

(** [sem_timedwait(sem, abs_timeout)] *)
Definition sem_timedwait (sem : Z) (abs_timeout : timespec) : M Z :=
  let pv := sem in
  if (sem =? NULL) || (pv =? NULL) then set_errno EINVAL
  else
    let* h := load pv in
    let* ms := arch_rel_time_in_ms abs_timeout in
    let* rc := WaitForSingleObject h (to_uint ms) in
    if rc =? WAIT_OBJECT_0 then ret 0
    else if rc =? WAIT_TIMEOUT then set_errno ETIMEDOUT
    else set_errno EPERM.

(** The name under which the kernel sees the semaphore when [sem_open]
    copies [len] characters of [name] behind the prefix. *)
Definition qualified (name : string) (len : Z) : string :=
  "Global\" +:+ string_of_list_ascii (take (Z.to_nat len) (list_ascii_of_string name)).

(** The same when the whole of [name] is copied. *)
Definition global_name (name : string) : string :=
  qualified name (Z.of_nat (strlen name)).

(** The local [char buffer[512]] of [sem_open] once the name is in it;
    [None] when a write leaves the array. *)
Definition fill_buffer (name : string) (len : Z) : option (list (option ascii)) :=
  let buffer := replicate 512 None in
  match memcpy buffer 0 "Global\" 7 with
  | Some buffer =>
      match memcpy buffer 7 name len with
      | Some buffer => array_write buffer (len + 7) [NUL]
      | None => None
      end
  | None => None
  end.

(** [sem_open(name, oflag, mode, value)].  The result is the [arch_sem_t]
    pointer itself, cast to [sem_t *]. *)
Definition sem_open (name : string) (oflag mode value : Z) : M Z :=
  let len := to_int (Z.of_nat (strlen name)) in
  if (to_uint SEM_VALUE_MAX <? value) || (512 - 8 <? len) || (len <? 1) then
    run set_errno EINVAL in
    ret NULL
  else
    let* pv := calloc in
    if pv =? NULL then
      run set_errno ENOMEM in
      ret NULL
    else
      let* buffer := lift (fill_buffer name len) in
      let* lpName := lift (c_string buffer) in
      let* h := OpenSemaphoreA SEMAPHORE_MODIFY_STATE FALSE lpName in
      run store pv h in
      if negb (h =? NULL) then
        if negb (Z.land oflag O_CREAT =? 0) && negb (Z.land oflag O_EXCL =? 0) then
          let* h := load pv in
          run CloseHandle h in
          run free pv in
          run set_errno EEXIST in
          ret NULL
        else ret pv
      else
        let* rc := GetLastError in
        if negb (rc =? ERROR_SEM_NOT_FOUND) && negb (rc =? ERROR_FILE_NOT_FOUND) then
          run free pv in
          run set_errno EPERM in
          ret NULL
        else if Z.land oflag O_CREAT =? 0 then
          run free pv in
          run set_errno ENOENT in
          ret NULL
        else
          let* h := CreateSemaphoreA NULL (to_int value) (to_int SEM_VALUE_MAX)
                      (Some lpName) in
          run store pv h in
          if h =? NULL then
            run free pv in
            run set_errno ENOSPC in
            ret NULL
          else ret pv.

(** [sem_close(sem)] *)
Definition sem_close (sem : Z) : M Z := sem_destroy sem.

(** [sem_unlink(name)] *)
Definition sem_unlink (name : string) : M Z := ret 0.


(** ** Handles

    A handle is the address [pv] of an [arch_sem_t]: [sem_init] stores it
    in the caller's [sem_t], [sem_open] returns it, and the other functions
    use their [sem] argument as such an address.
    [handle_on pv w id o access]: in [w] the block at [pv] holds a kernel
    handle with the rights [access] on the object [id], whose state is [o]. *)
Definition handle_on (pv : Z) (w : world) (id : Z) (o : ksem) (access : Z) : Prop :=
  pv <> NULL /\
  exists c, mem w !! pv = Some c /\
            handles w !! c_val c = Some (Handle id access) /\
            objects w !! id = Some o.

(** [wraps pv w id o]: in [w] the handle [pv] is valid, stands for the
    kernel object [id], whose state is [o], and may both post and wait. *)
Definition wraps (pv : Z) (w : world) (id : Z) (o : ksem) : Prop :=
  pv <> NULL /\
  exists c, mem w !! pv = Some c /\
            (exists access, handles w !! c_val c = Some (Handle id access) /\
                            Z.land access SEMAPHORE_MODIFY_STATE <> 0 /\
                            Z.land access SYNCHRONIZE <> 0) /\
            objects w !! id = Some o.

(** The count of the semaphore behind a handle. *)
Definition sem_count (pv : Z) (w : world) : option Z :=
  match mem w !! pv with
  | Some c =>
      match handles w !! c_val c with
      | Some e =>
          match objects w !! h_object e with
          | Some o => Some (k_count o)
          | None => None
          end
      | None => None
      end
  | None => None
  end.

(** ** Callers and invariants

    [repeat_call n op]: a caller that makes the call [op] up to [n] times in
    a row and stops at the first call that does not return 0.  The result is
    that of the last call made, and 0 when no call is made. *)
Fixpoint repeat_call (n : nat) (op : M Z) : M Z :=
  match n with
  | O => ret 0
  | S k => let* r := op in if r =? 0 then repeat_call k op else ret r
  end.

(** Every semaphore object has a count between 0 and its maximum. *)
Definition counts_bounded (w : world) : Prop :=
  forall id o, objects w !! id = Some o -> 0 <= k_count o <= k_max o.

(** What a status-returning call may do when it returns from [w]: it
    leaves the memory, the handle table, the namespace and the environment
    alone, and it either returns 0 without touching [errno], or returns -1
    with [errno] set to one of the codes [allowed] and with every semaphore
    object as it was. *)
Definition status_contract (allowed : list errno_code) (op : M Z) (w : world) : Prop :=
  forall r w', op w = Ret r w' ->
    mem w' = mem w /\ handles w' = handles w /\ names w' = names w /\
    env w' = env w /\
    ((r = 0 /\ errno w' = errno w) \/
     (r = -1 /\ objects w' = objects w /\
      exists e, errno w' = Some e /\ e ∈ allowed)).

(** The state [w] with the count of the object [id] set to [c]. *)
Definition set_count (id c : Z) (w : world) : world :=
  match objects w !! id with
  | Some o =>
      with_kernel (handles w)
        (<[id := Ksem c (k_max o) (k_name o) (k_refs o)]> (objects w)) (names w) w
  | None => w
  end.

(** ** Properties *)

(** Decides the integer comparisons of the goal that [lia] can settle. *)
Ltac zbool :=
  repeat match goal with
  | |- context [?a <=? ?b] =>
      first [ rewrite (proj2 (Z.leb_le a b)) by lia
            | rewrite (proj2 (Z.leb_gt a b)) by lia ]
  | |- context [?a <? ?b] =>
      first [ rewrite (proj2 (Z.ltb_lt a b)) by lia
            | rewrite (proj2 (Z.ltb_ge a b)) by lia ]
  | |- context [?a =? ?b] =>
      first [ rewrite (proj2 (Z.eqb_eq a b)) by lia
            | rewrite (proj2 (Z.eqb_neq a b)) by lia ]
  end.

(** Membership in a list given by its elements. *)
Ltac in_list :=
  repeat first [ apply list_elem_of_here | apply list_elem_of_further ].

(** *** Machine integers *)

Lemma to_uint_small z : 0 <= z <= UINT_MAX -> to_uint z = z.
Proof. unfold to_uint, UINT_MAX. intros H. apply Z.mod_small. lia. Qed.

Lemma to_int_small z : - 2147483648 <= z <= INT_MAX -> to_int z = z.
Proof.
  unfold to_int, INT_MAX. intros H.
  rewrite Z.mod_small by lia. lia.
Qed.

(** A non-negative number is at least its conversion to [int]. *)
Lemma to_int_le z : 0 <= z -> to_int z <= z.
Proof.
  unfold to_int. intros H.
  pose proof (Z.mod_le (z + 2147483648) 4294967296). lia.
Qed.

(** *** Fresh keys *)

Lemma fresh_key_bound {V} (m : gmap Z V) :
  0 <= map_fold (fun k _ acc => Z.max k acc) 0 m /\
  forall k, is_Some (m !! k) -> k <= map_fold (fun k _ acc => Z.max k acc) 0 m.
Proof.
  apply (map_fold_weak_ind
           (fun r (m : gmap Z V) => 0 <= r /\ forall k, is_Some (m !! k) -> k <= r)).
  - split; [lia|]. intros k [x Hx]. by rewrite lookup_empty in Hx.
  - intros i x m' r Hi [Hr IH]. split; [lia|].
    intros k Hk. destruct (decide (i = k)) as [->|Hne]; [lia|].
    rewrite lookup_insert_ne in Hk by done. specialize (IH k Hk). lia.
Qed.

Lemma fresh_key_pos {V} (m : gmap Z V) : 0 < fresh_key m.
Proof. unfold fresh_key. destruct (fresh_key_bound m). lia. Qed.

Lemma fresh_key_not_null {V} (m : gmap Z V) : (fresh_key m =? NULL) = false.
Proof. pose proof (fresh_key_pos m). unfold NULL. lia. Qed.

Lemma fresh_key_fresh {V} (m : gmap Z V) : m !! fresh_key m = None.
Proof.
  destruct (m !! fresh_key m) eqn:E; [|done].
  destruct (fresh_key_bound m) as [_ H].
  specialize (H (fresh_key m) (ex_intro _ _ E)). unfold fresh_key in H at 1. lia.
Qed.

(** *** C strings and the name buffer *)

Lemma strlen_le s : (strlen s <= length (list_ascii_of_string s))%nat.
Proof.
  induction s as [|c s IH]; simpl; [lia|].
  destruct (Ascii.eqb c NUL); simpl; lia.
Qed.

(** No NUL among the characters [strlen] counts. *)
Lemma strlen_no_NUL s n :
  (n <= strlen s)%nat ->
  Forall (fun c => Ascii.eqb c NUL = false) (take n (list_ascii_of_string s)).
Proof.
  revert n. induction s as [|c s IH]; intros n Hn; simpl in *.
  - rewrite take_nil. constructor.
  - destruct n as [|n]; [constructor|].
    destruct (Ascii.eqb c NUL) eqn:E; [lia|].
    simpl. constructor; [done|]. apply IH. lia.
Qed.

Lemma c_string_read (l : list ascii) (rest : list (option ascii)) :
  Forall (fun c => Ascii.eqb c NUL = false) l ->
  c_string ((Some <$> l) ++ Some NUL :: rest) = Some (string_of_list_ascii l).
Proof.
  induction 1 as [|c l Hc _ IH].
  - done.
  - rewrite fmap_cons. cbn [app c_string]. by rewrite Hc, IH.
Qed.

Lemma source_bytes_prefix s n :
  0 <= n <= Z.of_nat (strlen s) ->
  source_bytes s n = Some (take (Z.to_nat n) (list_ascii_of_string s)).
Proof.
  intros Hn. unfold source_bytes. pose proof (strlen_le s) as Hle.
  rewrite length_app. simpl length. zbool.
  simpl. f_equal. apply take_app_le. lia.
Qed.

(** Writing behind the part of an array that is already filled. *)
Lemma array_write_append (l src : list ascii) (n : nat) :
  (length src <= n)%nat ->
  array_write ((Some <$> l) ++ replicate n None) (Z.of_nat (length l)) src
  = Some ((Some <$> l ++ src) ++ replicate (n - length src) None).
Proof.
  intros Hn. unfold array_write.
  rewrite length_app, length_fmap, length_replicate. zbool.
  cbn [andb]. f_equal. rewrite Nat2Z.id.
  rewrite take_app_length' by (by rewrite length_fmap).
  rewrite drop_app_ge by (rewrite length_fmap; lia).
  rewrite length_fmap, drop_replicate, fmap_app, <- app_assoc.
  do 3 f_equal. lia.
Qed.

(** The three writes of [sem_open] into [buffer] stay inside it whenever
    [len] is between 0 and 504 and counts characters of [name]; the array
    then holds the prefix, the [len] characters and a NUL. *)
Lemma fill_buffer_ok name len :
  0 <= len <= 504 -> len <= Z.of_nat (strlen name) ->
  exists b, fill_buffer name len = Some b /\ length b = 512%nat /\
            c_string b = Some (qualified name len).
Proof.
  intros Hlen Hstr. unfold fill_buffer, memcpy.
  rewrite (source_bytes_prefix name len) by lia.
  set (src := take (Z.to_nat len) (list_ascii_of_string name)).
  assert (Hsrc : length src = Z.to_nat len).
  { unfold src. rewrite length_take. pose proof (strlen_le name). lia. }
  change (source_bytes "Global\" 7) with (Some (list_ascii_of_string "Global\")).
  set (pre := list_ascii_of_string "Global\").
  assert (Hpre : length pre = 7%nat) by reflexivity.
  cbv beta iota.
  change (replicate 512 None) with ((Some <$> @nil ascii) ++ @replicate (option ascii) 512 None).
  change 0 with (Z.of_nat (length (@nil ascii))) at 1.
  rewrite array_write_append by (rewrite Hpre; lia).
  change 7 with (Z.of_nat (length ([] ++ pre))) at 1.
  rewrite array_write_append by (rewrite Hpre, Hsrc; lia).
  replace (len + 7) with (Z.of_nat (length (([] ++ pre) ++ src)))
    by (rewrite !length_app, Hpre, Hsrc; simpl; lia).
  rewrite array_write_append by (rewrite Hpre, Hsrc; simpl; lia).
  eexists. split; [reflexivity|]. split.
  - rewrite length_app, length_fmap, !length_app, length_replicate, Hpre, Hsrc.
    simpl. lia.
  - rewrite Hpre, Hsrc. simpl length.
    replace (512 - 7 - Z.to_nat len - 1)%nat with (504 - Z.to_nat len)%nat by lia.
    rewrite fmap_app, <- app_assoc. cbn [fmap list_fmap app].
    etrans; [apply (c_string_read (pre ++ src))|].
    + apply Forall_app. split.
      * unfold pre. simpl. repeat constructor.
      * apply strlen_no_NUL. lia.
    + unfold qualified. fold src. unfold pre. reflexivity.
Qed.

(** *** [sem_init] *)

Lemma sem_value_max_uint : to_uint SEM_VALUE_MAX = SEM_VALUE_MAX.
Proof. apply to_uint_small. unfold INT_MAX, UINT_MAX in *. lia. Qed.

Lemma sem_value_max_long : to_int SEM_VALUE_MAX = SEM_VALUE_MAX.
Proof. apply to_int_small. unfold INT_MAX in *. lia. Qed.

(** What [sem_init] does, case by case.  The semaphore is created before
    the caller's cell is looked at, so the kernel state of a call that
    reaches [CreateSemaphoreA] is the one that call leaves. *)
Lemma sem_init_cases sem pshared value w :
  sem_init sem pshared value w =
  if (sem =? NULL) || (SEM_VALUE_MAX <? value) then Ret (-1) (with_errno EINVAL w)
  else if negb (pshared =? PTHREAD_PROCESS_PRIVATE) then Ret (-1) (with_errno EPERM w)
  else if heap_exhausted (env w) then Ret (-1) (with_errno ENOMEM w)
  else
    let pv := fresh_key (mem w) in
    match CreateSemaphoreA NULL (to_int value) SEM_VALUE_MAX None w with
    | Ret h wk =>
        if h =? NULL then Ret (-1) (with_errno ENOSPC wk)
        else
          let m := <[pv := Cell true h]> (mem w) in
          match m !! sem with
          | Some c => Ret 0 (with_mem (<[sem := Cell (c_heap c) pv]> m) wk)
          | None => Undefined
          end
    | Blocked => Blocked
    | Undefined => Undefined
    end.
Proof.
  unfold sem_init. rewrite sem_value_max_uint, sem_value_max_long.
  destruct ((sem =? NULL) || (SEM_VALUE_MAX <? value)); [done|].
  destruct (negb (pshared =? PTHREAD_PROCESS_PRIVATE)); [done|].
  unfold bind at 1. unfold calloc.
  destruct w as [m hs os ns e le t ev]. cbn.
  destruct (heap_exhausted ev); [done|].
  rewrite fresh_key_not_null.
  pose proof (fresh_key_fresh m) as Hpv.
  unfold bind, CreateSemaphoreA. cbn.
  destruct (kernel_exhausted ev); cbn.
  { unfold store, free. cbn. rewrite lookup_insert_eq. cbn.
    rewrite lookup_insert_eq, fresh_key_not_null. cbn.
    unfold with_mem. cbn. by rewrite insert_insert_eq, delete_insert_eq, delete_id. }
  destruct ((to_int value <? 0) || (SEM_VALUE_MAX <=? 0)
            || (SEM_VALUE_MAX <? to_int value)); cbn.
  { unfold store, free. cbn. rewrite lookup_insert_eq. cbn.
    rewrite lookup_insert_eq, fresh_key_not_null. cbn.
    unfold with_mem. cbn. by rewrite insert_insert_eq, delete_insert_eq, delete_id. }
  rewrite fresh_key_not_null.
  unfold store. cbn. rewrite lookup_insert_eq. cbn.
  rewrite insert_insert_eq.
  by destruct (<[fresh_key m:=_]> m !! sem).
Qed.

(** Building and using [wraps]. *)
Lemma wraps_intro pv w c id o access :
  pv <> NULL -> mem w !! pv = Some c ->
  handles w !! c_val c = Some (Handle id access) ->
  Z.land access SEMAPHORE_MODIFY_STATE <> 0 -> Z.land access SYNCHRONIZE <> 0 ->
  objects w !! id = Some o ->
  wraps pv w id o.
Proof. intros. split; [done|]. exists c. repeat split; try done. by exists access. Qed.

Lemma wraps_all_access pv w c id o :
  pv <> NULL -> mem w !! pv = Some c ->
  handles w !! c_val c = Some (Handle id SEMAPHORE_ALL_ACCESS) ->
  objects w !! id = Some o ->
  wraps pv w id o.
Proof. intros. by apply (wraps_intro pv w c id o SEMAPHORE_ALL_ACCESS). Qed.

Lemma fresh_key_nonzero {V} (m : gmap Z V) : fresh_key m <> NULL.
Proof. pose proof (fresh_key_pos m). unfold NULL. lia. Qed.

(** A call of [CreateSemaphoreA] for an unnamed object, spelled out. *)
Lemma CreateSemaphoreA_unnamed init max w :
  CreateSemaphoreA NULL init max None w =
  if kernel_exhausted (env w) then
    Ret NULL (with_last_error ERROR_NO_SYSTEM_RESOURCES w)
  else if (init <? 0) || (max <=? 0) || (max <? init) then
    Ret NULL (with_last_error ERROR_INVALID_PARAMETER w)
  else
    Ret (fresh_key (handles w))
      (with_kernel
         (<[fresh_key (handles w)
            := Handle (fresh_key (objects w)) SEMAPHORE_ALL_ACCESS]> (handles w))
         (<[fresh_key (objects w) := Ksem init max None 1]> (objects w))
         (names w) w).
Proof. reflexivity. Qed.

(** A successful [sem_init] leaves a new handle in the caller's cell, on a
    new object that holds [value]. *)
Lemma sem_init_success sem pshared value w w1 c :
  0 <= value <= SEM_VALUE_MAX ->
  mem w !! sem = Some c ->
  sem_init sem pshared value w = Ret 0 w1 ->
  let pv := fresh_key (mem w) in
  mem w1 !! sem = Some (Cell (c_heap c) pv) /\
  wraps pv w1 (fresh_key (objects w)) (Ksem value SEM_VALUE_MAX None 1).
Proof.
  intros Hval Hc. rewrite sem_init_cases, CreateSemaphoreA_unnamed.
  rewrite to_int_small by (unfold INT_MAX in *; lia).
  assert (Hne : sem <> fresh_key (mem w)).
  { intros ->. by rewrite fresh_key_fresh in Hc. }
  destruct ((sem =? NULL) || (SEM_VALUE_MAX <? value)); [done|].
  destruct (negb (pshared =? PTHREAD_PROCESS_PRIVATE)); [done|].
  destruct (heap_exhausted (env w)); [done|].
  destruct (kernel_exhausted (env w)); [done|].
  destruct ((value <? 0) || (SEM_VALUE_MAX <=? 0) || (SEM_VALUE_MAX <? value)); [done|].
  cbn zeta. rewrite fresh_key_not_null, lookup_insert_ne, Hc by done.
  intros [= <-]. cbn. split.
  - by rewrite lookup_insert_eq.
  - apply (wraps_all_access _ _ (Cell true (fresh_key (handles w))));
      [apply fresh_key_nonzero|cbn..].
    + rewrite lookup_insert_ne by done. by rewrite lookup_insert_eq.
    + by rewrite lookup_insert_eq.
    + by rewrite lookup_insert_eq.
Qed.

(** *** The operations on a valid handle *)

Lemma sem_trywait_valid pv w id o :
  wraps pv w id o ->
  sem_trywait pv w =
  if 0 <? k_count o then
    Ret 0 (with_kernel (handles w)
             (<[id := Ksem (k_count o - 1) (k_max o) (k_name o) (k_refs o)]> (objects w))
             (names w) w)
  else Ret (-1) (with_errno ETIMEDOUT w).
Proof.
  intros (Hpv & c & Hc & (access & Hh & Hpost & Hwait) & Ho). unfold sem_trywait.
  rewrite (proj2 (Z.eqb_neq pv NULL)) by done. cbn [orb].
  unfold bind, load, WaitForSingleObject.
  rewrite Hc, Hh, (proj2 (Z.eqb_neq _ 0) Hwait), Ho.
  destruct (0 <? k_count o); [done|]. cbn.
  unfold set_errno. f_equal. destruct w. cbn. by rewrite Z.add_0_r.
Qed.

Lemma sem_post_valid pv w id o :
  wraps pv w id o ->
  sem_post pv w =
  if k_max o - k_count o <? 1 then
    Ret (-1) (with_errno EINVAL (with_last_error ERROR_TOO_MANY_POSTS w))
  else
    Ret 0 (with_kernel (handles w)
             (<[id := Ksem (k_count o + 1) (k_max o) (k_name o) (k_refs o)]> (objects w))
             (names w) w).
Proof.
  intros (Hpv & c & Hc & (access & Hh & Hpost & Hwait) & Ho). unfold sem_post.
  rewrite (proj2 (Z.eqb_neq pv NULL)) by done. cbn [orb].
  unfold bind, load, ReleaseSemaphore.
  rewrite Hc, Hh, (proj2 (Z.eqb_neq _ 0) Hpost), Ho. cbn.
  by destruct (k_max o - k_count o <? 1).
Qed.

Lemma sem_wait_valid pv w id o :
  wraps pv w id o ->
  sem_wait pv w =
  if 0 <? k_count o then
    Ret 0 (with_kernel (handles w)
             (<[id := Ksem (k_count o - 1) (k_max o) (k_name o) (k_refs o)]> (objects w))
             (names w) w)
  else Blocked.
Proof.
  intros (Hpv & c & Hc & (access & Hh & Hpost & Hwait) & Ho). unfold sem_wait.
  rewrite (proj2 (Z.eqb_neq pv NULL)) by done. cbn [orb].
  unfold bind, load, WaitForSingleObject.
  rewrite Hc, Hh, (proj2 (Z.eqb_neq _ 0) Hwait), Ho.
  by destruct (0 <? k_count o).
Qed.

(** An operation that only changes the state of the object leaves the
    handle valid. *)
Lemma wraps_update pv w id o o' :
  wraps pv w id o ->
  wraps pv (with_kernel (handles w) (<[id := o']> (objects w)) (names w) w) id o'.
Proof.
  intros (Hpv & c & Hc & Hh & Ho). split; [done|].
  exists c. cbn. by rewrite lookup_insert_eq.
Qed.


Lemma sem_count_wraps pv w id o : wraps pv w id o -> sem_count pv w = Some (k_count o).
Proof.
  intros (Hpv & c & Hc & (access & Hh & _) & Ho). unfold sem_count.
  rewrite Hc, Hh. cbn. by rewrite Ho.
Qed.

(** [post] then [wait] on a handle whose count is 0 brings the state back. *)
Lemma post_wait_roundtrip pv w id o :
  wraps pv w id o -> k_count o = 0 -> 0 < k_max o ->
  exists w2, sem_post pv w = Ret 0 w2 /\ sem_count pv w2 = Some 1 /\
             sem_wait pv w2 = Ret 0 w /\
             sem_trywait pv w = Ret (-1) (with_errno ETIMEDOUT w).
Proof.
  intros Hw Hcount Hmax.
  pose proof (wraps_update pv w id o
                (Ksem (k_count o + 1) (k_max o) (k_name o) (k_refs o)) Hw) as Hw2.
  eexists. split; [|split; [|split]].
  - rewrite (sem_post_valid pv w id o Hw). by zbool.
  - rewrite (sem_count_wraps _ _ _ _ Hw2). cbn. by rewrite Hcount.
  - rewrite (sem_wait_valid _ _ _ _ Hw2). cbn. zbool. f_equal.
    destruct Hw as (_ & c & _ & _ & Ho). destruct w, o. cbn in *.
    rewrite insert_insert_eq. unfold with_kernel. cbn. f_equal.
    apply insert_id. rewrite Ho. f_equal. f_equal. lia.
  - rewrite (sem_trywait_valid pv w id o Hw). by zbool.
Qed.

(** With a duration of zero [sem_timedwait] runs the code of
    [sem_trywait]. *)
Lemma timedwait_zero sem abs_timeout w :
  deadline_ms abs_timeout <= now w ->
  sem_timedwait sem abs_timeout w = sem_trywait sem w.
Proof.
  intros Hpast. unfold sem_timedwait, sem_trywait.
  destruct ((sem =? NULL) || (sem =? NULL)); [done|].
  unfold bind, load, arch_rel_time_in_ms.
  destruct (mem w !! sem); [|done].
  by rewrite Z.max_l by lia.
Qed.

(** C7. For every shared flag and every initial value greater than
    SEM_VALUE_MAX, [sem_init] fails with EINVAL: it returns -1 and changes
    nothing but [errno], so nothing is allocated and no object is
    created. *)
Theorem sem_init_value_too_large sem pshared value w :
  SEM_VALUE_MAX < value ->
  sem_init sem pshared value w = Ret (-1) (with_errno EINVAL w).
Proof.
  intros Hval. rewrite sem_init_cases.
  rewrite (proj2 (Z.ltb_lt SEM_VALUE_MAX value)) by done.
  by rewrite orb_true_r.
Qed.

(** The handle of a semaphore made by [sem_init] is in the block whose
    address [sem_init] stored in the caller's [sem_t].  On that address the
    operations do what is expected of them: [sem_trywait] succeeds, taking
    one from the count, if and only if the initial value is positive. *)
Lemma trywait_on_stored_pointer sem value w w1 c :
  0 <= value <= SEM_VALUE_MAX ->
  mem w !! sem = Some c ->
  sem_init sem PTHREAD_PROCESS_PRIVATE value w = Ret 0 w1 ->
  exists pv,
    c_val <$> mem w1 !! sem = Some pv /\
    sem_count pv w1 = Some value /\
    (0 < value ->
     exists w2, sem_trywait pv w1 = Ret 0 w2 /\ sem_count pv w2 = Some (value - 1)) /\
    (value = 0 -> sem_trywait pv w1 = Ret (-1) (with_errno ETIMEDOUT w1)) /\
    ((exists w2, sem_trywait pv w1 = Ret 0 w2) <-> 0 < value).
Proof.
  intros Hval Hc Hinit.
  destruct (sem_init_success _ _ _ _ _ _ Hval Hc Hinit) as [Hsem Hw].
  exists (fresh_key (mem w)). rewrite Hsem. split; [done|].
  rewrite (sem_count_wraps _ _ _ _ Hw), (sem_trywait_valid _ _ _ _ Hw). cbn.
  split; [done|]. split; [|split; [|split]].
  - intros Hpos. zbool. eexists. split; [done|].
    by rewrite (sem_count_wraps _ _ _ _ (wraps_update _ _ _ _ _ Hw)).
  - intros ->. by zbool.
  - intros [w2 H2]. destruct (0 <? value) eqn:E; [lia|done].
  - intros Hpos. zbool. by eexists.
Qed.

(** On that address [sem_post] and then [sem_wait] bring a count of 0
    back to 0. *)
Lemma post_wait_on_stored_pointer sem w w1 c :
  mem w !! sem = Some c ->
  sem_init sem PTHREAD_PROCESS_PRIVATE 0 w = Ret 0 w1 ->
  exists pv w2,
    c_val <$> mem w1 !! sem = Some pv /\
    sem_count pv w1 = Some 0 /\
    sem_post pv w1 = Ret 0 w2 /\
    sem_count pv w2 = Some 1 /\
    sem_wait pv w2 = Ret 0 w1 /\
    sem_trywait pv w1 = Ret (-1) (with_errno ETIMEDOUT w1).
Proof.
  intros Hc Hinit.
  assert (Hval : 0 <= 0 <= SEM_VALUE_MAX) by lia.
  destruct (sem_init_success _ _ _ _ _ _ Hval Hc Hinit) as [Hsem Hw].
  destruct (post_wait_roundtrip _ _ _ _ Hw) as (w2 & Hpost & Hc2 & Hwait & Htry);
    [done|cbn; lia|].
  exists (fresh_key (mem w)), w2. rewrite Hsem.
  by rewrite (sem_count_wraps _ _ _ _ Hw).
Qed.

(** The operations on an address whose first word is no handle of the
    process: the kernel turns the call down. *)
Lemma operations_not_a_handle sem w c :
  sem <> NULL -> mem w !! sem = Some c -> handles w !! c_val c = None ->
  sem_post sem w = Ret (-1) (with_errno EINVAL (with_last_error ERROR_INVALID_HANDLE w)) /\
  sem_wait sem w = Ret (-1) (with_errno EPERM (with_last_error ERROR_INVALID_HANDLE w)) /\
  sem_trywait sem w
  = Ret (-1) (with_errno EPERM (with_last_error ERROR_INVALID_HANDLE w)).
Proof.
  intros Hsem Hc Hh. unfold sem_post, sem_wait, sem_trywait.
  rewrite (proj2 (Z.eqb_neq sem NULL)) by done. cbn [orb].
  unfold bind, load, ReleaseSemaphore, WaitForSingleObject.
  by rewrite Hc, Hh.
Qed.

(** [sem_init] succeeds only on an address that is not NULL. *)
Lemma sem_init_not_null sem pshared value w w1 :
  sem_init sem pshared value w = Ret 0 w1 -> sem <> NULL.
Proof.
  intros Hinit ->. revert Hinit. rewrite sem_init_cases.
  change (NULL =? NULL) with true. by cbn [orb].
Qed.

(** C3. The claim fails on the pointer the caller has.  [sem_init] stores
    the address of the new [arch_sem_t] in the caller's [sem_t], at [sem];
    [sem_trywait] casts its argument to [arch_sem_t *] without reading
    through it.  So for every initial value in [0, SEM_VALUE_MAX], positive
    ones included, after a successful [sem_init] on [sem] a [sem_trywait] on
    the same [sem] hands the kernel the address [sem_init] stored as if it
    were a handle, and returns -1 with EPERM; the count stays at the initial
    value.  The address is taken not to be a handle of the process. *)
Theorem init_then_trywait_same_pointer sem value w w1 c :
  0 <= value <= SEM_VALUE_MAX ->
  mem w !! sem = Some c ->
  sem_init sem PTHREAD_PROCESS_PRIVATE value w = Ret 0 w1 ->
  handles w1 !! fresh_key (mem w) = None ->
  c_val <$> mem w1 !! sem = Some (fresh_key (mem w)) /\
  sem_count (fresh_key (mem w)) w1 = Some value /\
  sem_trywait sem w1
  = Ret (-1) (with_errno EPERM (with_last_error ERROR_INVALID_HANDLE w1)) /\
  sem_count (fresh_key (mem w))
    (with_errno EPERM (with_last_error ERROR_INVALID_HANDLE w1)) = Some value.
Proof.
  intros Hval Hc Hinit Hh.
  destruct (sem_init_success _ _ _ _ _ _ Hval Hc Hinit) as [Hsem Hw].
  pose proof (sem_count_wraps _ _ _ _ Hw) as Hcount.
  rewrite Hsem. split; [done|]. split; [done|]. split; [|done].
  by apply (operations_not_a_handle sem w1 _ (sem_init_not_null _ _ _ _ _ Hinit) Hsem).
Qed.

(** C4. The claim fails on the pointer the caller has, for the reason
    given under C3.  After a successful [sem_init] on [sem] with count 0,
    [sem_post] on the same [sem] returns -1 with EINVAL, [sem_wait] after it
    returns -1 with EPERM, and [sem_trywait] after them returns -1 with EPERM,
    not ETIMEDOUT; the kernel objects are untouched throughout.  The address
    [sem_init] stored is taken not to be a handle of the process. *)
Theorem post_then_wait_same_pointer sem w w1 c :
  mem w !! sem = Some c ->
  sem_init sem PTHREAD_PROCESS_PRIVATE 0 w = Ret 0 w1 ->
  handles w1 !! fresh_key (mem w) = None ->
  let w2 := with_errno EINVAL (with_last_error ERROR_INVALID_HANDLE w1) in
  let w3 := with_errno EPERM w2 in
  sem_count (fresh_key (mem w)) w1 = Some 0 /\
  sem_post sem w1 = Ret (-1) w2 /\
  sem_wait sem w2 = Ret (-1) w3 /\
  sem_trywait sem w3 = Ret (-1) w3 /\
  errno w3 = Some EPERM /\ objects w3 = objects w1.
Proof.
  intros Hc Hinit Hh w2 w3.
  assert (Hval : 0 <= 0 <= SEM_VALUE_MAX) by lia.
  destruct (sem_init_success _ _ _ _ _ _ Hval Hc Hinit) as [Hsem Hw].
  pose proof (sem_init_not_null _ _ _ _ _ Hinit) as Hnn.
  split; [by rewrite (sem_count_wraps _ _ _ _ Hw)|].
  destruct (operations_not_a_handle sem w1 _ Hnn Hsem Hh) as (Hpost & _ & _).
  destruct (operations_not_a_handle sem w2 _ Hnn Hsem Hh) as (_ & Hwait & _).
  destruct (operations_not_a_handle sem w3 _ Hnn Hsem Hh) as (_ & _ & Htry).
  split; [exact Hpost|]. split; [exact Hwait|]. split; [exact Htry|]. done.
Qed.

(** C2. When the deadline is at or before the current time, so that the
    relative duration is 0, [sem_timedwait] returns what [sem_trywait]
    returns in the same state: on a valid handle success if the count is
    positive and ETIMEDOUT if it is not, EPERM when the wait ends
    abnormally; it does not block and the clock does not move. *)
Theorem timedwait_past_deadline pv abs_timeout w :
  deadline_ms abs_timeout <= now w ->
  sem_timedwait pv abs_timeout w = sem_trywait pv w /\
  (forall id o, wraps pv w id o ->
     (0 < k_count o ->
      exists w', sem_timedwait pv abs_timeout w = Ret 0 w' /\
                 sem_count pv w' = Some (k_count o - 1) /\ now w' = now w) /\
     (k_count o <= 0 ->
      sem_timedwait pv abs_timeout w = Ret (-1) (with_errno ETIMEDOUT w))) /\
  (forall c, pv <> NULL -> mem w !! pv = Some c -> handles w !! c_val c = None ->
     sem_timedwait pv abs_timeout w
     = Ret (-1) (with_errno EPERM (with_last_error ERROR_INVALID_HANDLE w))) /\
  sem_timedwait pv abs_timeout w <> Blocked.
Proof.
  intros Hpast. rewrite (timedwait_zero _ _ _ Hpast).
  split; [done|]. split; [|split].
  - intros id o Hw. rewrite (sem_trywait_valid _ _ _ _ Hw). split.
    + intros Hpos. zbool. eexists. split; [done|].
      by rewrite (sem_count_wraps _ _ _ _ (wraps_update _ _ _ _ _ Hw)).
    + intros Hzero. by zbool.
  - intros c Hpv Hc Hh. unfold sem_trywait.
    rewrite (proj2 (Z.eqb_neq pv NULL)) by done. cbn [orb].
    unfold bind, load, WaitForSingleObject. by rewrite Hc, Hh.
  - unfold sem_trywait.
    destruct ((pv =? NULL) || (pv =? NULL)); [done|].
    unfold bind, load, WaitForSingleObject.
    destruct (mem w !! pv) as [c|]; [|done].
    destruct (handles w !! c_val c) as [[id access]|]; [|done].
    destruct (Z.land access SYNCHRONIZE =? 0); [done|].
    destruct (objects w !! id) as [o|]; [|done].
    by destruct (0 <? k_count o).
Qed.

(** C8. For every name, [sem_unlink] returns 0 and leaves the whole state
    as it is: the namespace, the kernel objects and every open handle. *)
Theorem sem_unlink_no_action name w : sem_unlink name w = Ret 0 w.
Proof. reflexivity. Qed.


(** *** [sem_open] *)

(** Runs the accesses of [sem_open] to the block it allocated, at the
    fresh address that [Hpv] says is free. *)
Ltac open_memory Hpv :=
  cbn;
  repeat (first
    [ rewrite lookup_insert_eq
    | rewrite insert_insert_eq
    | rewrite delete_insert_eq
    | rewrite (delete_id _ _ Hpv)
    | rewrite fresh_key_not_null
    | progress cbn ]).

(** The length that passes the guard of [sem_open] counts characters of the
    name. *)
Lemma accepted_length name :
  let len := to_int (Z.of_nat (strlen name)) in
  (504 <? len) || (len <? 1) = false ->
  0 <= len <= 504 /\ len <= Z.of_nat (strlen name).
Proof.
  intros len H. apply orb_false_elim in H as [H1 H2].
  apply Z.ltb_ge in H1, H2. split; [lia|].
  apply to_int_le. lia.
Qed.

(** What [sem_open] does, case by case.  The memory of the process matters
    to the allocation only; the rest is settled by the kernel calls, which
    are shown on the state [w] the call starts from. *)
Lemma sem_open_cases name oflag mode value w :
  sem_open name oflag mode value w =
  let len := to_int (Z.of_nat (strlen name)) in
  if (SEM_VALUE_MAX <? value) || (504 <? len) || (len <? 1) then
    Ret NULL (with_errno EINVAL w)
  else if heap_exhausted (env w) then Ret NULL (with_errno ENOMEM w)
  else
    let pv := fresh_key (mem w) in
    let lpName := qualified name len in
    match OpenSemaphoreA SEMAPHORE_MODIFY_STATE FALSE lpName w with
    | Ret h wo =>
        if negb (h =? NULL) then
          if negb (Z.land oflag O_CREAT =? 0) && negb (Z.land oflag O_EXCL =? 0) then
            match CloseHandle h wo with
            | Ret _ wc => Ret NULL (with_errno EEXIST wc)
            | Blocked => Blocked
            | Undefined => Undefined
            end
          else Ret pv (with_mem (<[pv := Cell true h]> (mem w)) wo)
        else
          let rc := last_error wo in
          if negb (rc =? ERROR_SEM_NOT_FOUND) && negb (rc =? ERROR_FILE_NOT_FOUND) then
            Ret NULL (with_errno EPERM wo)
          else if Z.land oflag O_CREAT =? 0 then Ret NULL (with_errno ENOENT wo)
          else
            match CreateSemaphoreA NULL (to_int value) SEM_VALUE_MAX (Some lpName) wo with
            | Ret h wk =>
                if h =? NULL then Ret NULL (with_errno ENOSPC wk)
                else Ret pv (with_mem (<[pv := Cell true h]> (mem w)) wk)
            | Blocked => Blocked
            | Undefined => Undefined
            end
    | Blocked => Blocked
    | Undefined => Undefined
    end.
Proof.
  unfold sem_open. rewrite sem_value_max_uint, sem_value_max_long.
  change (512 - 8) with 504. cbn zeta.
  set (len := to_int (Z.of_nat (strlen name))).
  destruct (SEM_VALUE_MAX <? value); [done|]. cbn [orb].
  destruct ((504 <? len) || (len <? 1)) eqn:Hguard; [done|].
  destruct (accepted_length name Hguard) as [Hlen Hstr]. fold len in Hlen, Hstr.
  destruct (fill_buffer_ok name len Hlen Hstr) as (b & Hb & _ & Hname).
  unfold bind at 1. unfold calloc.
  destruct w as [m hs os ns e le t ev]. cbn.
  destruct (heap_exhausted ev); [done|].
  rewrite fresh_key_not_null.
  pose proof (fresh_key_fresh m) as Hpv.
  unfold bind at 1. rewrite Hb. cbn [lift].
  unfold bind at 1. rewrite Hname. cbn [lift].
  unfold OpenSemaphoreA, CreateSemaphoreA, CloseHandle, named_object, open_object.
  unfold bind, store, load, free, set_errno, ret, GetLastError.
  unfold with_mem, with_kernel, with_last_error, with_errno. cbn.
  destruct (open_refused ev !! qualified name len) as [rc|] eqn:Href; cbn.
  { open_memory Hpv.
    destruct (negb (rc =? ERROR_SEM_NOT_FOUND) && negb (rc =? ERROR_FILE_NOT_FOUND));
      open_memory Hpv; [done|].
    destruct (Z.land oflag O_CREAT =? 0); open_memory Hpv; [done|].
    rewrite Href.
    destruct (kernel_exhausted ev); open_memory Hpv; [done|].
    destruct ((to_int value <? 0) || (SEM_VALUE_MAX <=? 0)
              || (SEM_VALUE_MAX <? to_int value)); by open_memory Hpv. }
  destruct (ns !! qualified name len) as [id|] eqn:Hns; cbn.
  - destruct (os !! id) as [o|] eqn:Hos; open_memory Hpv.
    + destruct (negb (Z.land oflag O_CREAT =? 0) && negb (Z.land oflag O_EXCL =? 0));
        open_memory Hpv; [|done].
      destruct (k_refs o); by open_memory Hpv.
    + destruct (Z.land oflag O_CREAT =? 0); open_memory Hpv; [done|].
      rewrite Href, Hns, Hos.
      destruct (kernel_exhausted ev); open_memory Hpv; [done|].
      destruct ((to_int value <? 0) || (SEM_VALUE_MAX <=? 0)
                || (SEM_VALUE_MAX <? to_int value)); by open_memory Hpv.
  - open_memory Hpv.
    destruct (Z.land oflag O_CREAT =? 0); open_memory Hpv; [done|].
    rewrite Href, Hns.
    destruct (kernel_exhausted ev); open_memory Hpv; [done|].
    destruct ((to_int value <? 0) || (SEM_VALUE_MAX <=? 0)
              || (SEM_VALUE_MAX <? to_int value)); by open_memory Hpv.
Qed.

(** The kernel calls of [sem_open], spelled out. *)

Lemma OpenSemaphoreA_cases access inherit n w :
  OpenSemaphoreA access inherit n w =
  match open_refused (env w) !! n with
  | Some e => Ret NULL (with_last_error e w)
  | None =>
      match named_object n w with
      | Some (id, o) =>
          Ret (fresh_key (handles w))
            (with_kernel (<[fresh_key (handles w) := Handle id access]> (handles w))
               (<[id := Ksem (k_count o) (k_max o) (k_name o) (S (k_refs o))]> (objects w))
               (names w) w)
      | None => Ret NULL (with_last_error ERROR_FILE_NOT_FOUND w)
      end
  end.
Proof.
  unfold OpenSemaphoreA. destruct (open_refused (env w) !! n); [done|].
  by destruct (named_object n w) as [[id o]|].
Qed.

(** A failed open leaves its reason and nothing else. *)
Lemma OpenSemaphoreA_null access inherit n w wo :
  OpenSemaphoreA access inherit n w = Ret NULL wo ->
  wo = with_last_error (last_error wo) w /\
  (open_refused (env w) !! n = None ->
   named_object n w = None /\ last_error wo = ERROR_FILE_NOT_FOUND).
Proof.
  rewrite OpenSemaphoreA_cases.
  destruct (open_refused (env w) !! n) as [e|].
  - intros [= <-]. by split.
  - destruct (named_object n w) as [[id o]|].
    + intros [= H _]. pose proof (fresh_key_pos (handles w)). unfold NULL in H. lia.
    + intros [= <-]. by split.
Qed.

(** A failed creation leaves its reason and nothing else. *)
Lemma CreateSemaphoreA_null init max lpName w wk :
  CreateSemaphoreA NULL init max lpName w = Ret NULL wk ->
  wk = with_last_error (last_error wk) w.
Proof.
  unfold CreateSemaphoreA.
  destruct (kernel_exhausted (env w)); [by intros [= <-]|].
  destruct ((init <? 0) || (max <=? 0) || (max <? init)); [by intros [= <-]|].
  assert (Hh : fresh_key (handles w) <> NULL).
  { pose proof (fresh_key_pos (handles w)). unfold NULL. lia. }
  destruct lpName as [n|]; [|by intros [= H _]].
  destruct (open_refused (env w) !! n); [by intros [= <-]|].
  destruct (named_object n w) as [[id o]|]; by intros [= H _].
Qed.

Lemma CreateSemaphoreA_returns init max lpName w :
  exists h wk, CreateSemaphoreA NULL init max lpName w = Ret h wk.
Proof.
  unfold CreateSemaphoreA.
  destruct (kernel_exhausted (env w)); [by eauto|].
  destruct ((init <? 0) || (max <=? 0) || (max <? init)); [by eauto|].
  destruct lpName as [n|]; [|by eauto].
  destruct (open_refused (env w) !! n); [by eauto|].
  destruct (named_object n w) as [[id o]|]; by eauto.
Qed.

(** Creating a semaphore under a free name. *)
Lemma CreateSemaphoreA_new init max n w :
  kernel_exhausted (env w) = false ->
  0 <= init <= max -> 0 < max ->
  open_refused (env w) !! n = None ->
  named_object n w = None ->
  CreateSemaphoreA NULL init max (Some n) w =
  Ret (fresh_key (handles w))
    (with_kernel
       (<[fresh_key (handles w)
          := Handle (fresh_key (objects w)) SEMAPHORE_ALL_ACCESS]> (handles w))
       (<[fresh_key (objects w) := Ksem init max (Some n) 1]> (objects w))
       (<[n := fresh_key (objects w)]> (names w)) w).
Proof.
  intros Hker Hinit Hmax Href Hname. unfold CreateSemaphoreA.
  rewrite Hker, Href, Hname. by zbool.
Qed.

(** Closing the handle that was just opened on an object others hold. *)
Lemma CloseHandle_just_opened w id o access :
  objects w !! id = Some o -> (0 < k_refs o)%nat ->
  CloseHandle (fresh_key (handles w))
    (with_kernel (<[fresh_key (handles w) := Handle id access]> (handles w))
       (<[id := Ksem (k_count o) (k_max o) (k_name o) (S (k_refs o))]> (objects w))
       (names w) w)
  = Ret 1 w.
Proof.
  intros Ho Hrefs. unfold CloseHandle. cbn. rewrite !lookup_insert_eq. cbn.
  destruct (k_refs o) as [|n] eqn:E; [lia|].
  destruct w, o. unfold with_kernel. cbn in *. subst.
  rewrite delete_insert_eq, insert_insert_eq.
  rewrite (delete_id _ _ (fresh_key_fresh _)). by rewrite (insert_id _ _ _ Ho).
Qed.

(** Closing a handle that was just opened gives the handle table back. *)
Lemma CloseHandle_handles w id o' access :
  exists wc,
    CloseHandle (fresh_key (handles w))
      (with_kernel (<[fresh_key (handles w) := Handle id access]> (handles w))
         (<[id := o']> (objects w)) (names w) w)
    = Ret 1 wc /\
    handles wc = handles w /\ mem wc = mem w /\ errno wc = errno w /\ env wc = env w.
Proof.
  unfold CloseHandle. cbn. rewrite !lookup_insert_eq.
  destruct (k_refs o') as [|[|n]]; eexists; (split; [reflexivity|]); cbn;
    by rewrite delete_insert_eq, (delete_id _ _ (fresh_key_fresh _)).
Qed.

(** The guard of [sem_open] on a name of between 1 and 504 characters. *)
Lemma name_guard_passes name :
  1 <= Z.of_nat (strlen name) <= 504 ->
  to_int (Z.of_nat (strlen name)) = Z.of_nat (strlen name) /\
  (504 <? Z.of_nat (strlen name)) || (Z.of_nat (strlen name) <? 1) = false.
Proof.
  intros H. split; [apply to_int_small; unfold INT_MAX; lia|]. by zbool.
Qed.


(** [sem_open] on arguments that pass its guard, with memory to spare:
    what is left is the exchange with the kernel. *)
Lemma sem_open_valid name oflag mode value w :
  value <= SEM_VALUE_MAX ->
  1 <= Z.of_nat (strlen name) <= 504 ->
  heap_exhausted (env w) = false ->
  sem_open name oflag mode value w =
  let pv := fresh_key (mem w) in
  match OpenSemaphoreA SEMAPHORE_MODIFY_STATE FALSE (global_name name) w with
  | Ret h wo =>
      if negb (h =? NULL) then
        if negb (Z.land oflag O_CREAT =? 0) && negb (Z.land oflag O_EXCL =? 0) then
          match CloseHandle h wo with
          | Ret _ wc => Ret NULL (with_errno EEXIST wc)
          | Blocked => Blocked
          | Undefined => Undefined
          end
        else Ret pv (with_mem (<[pv := Cell true h]> (mem w)) wo)
      else
        let rc := last_error wo in
        if negb (rc =? ERROR_SEM_NOT_FOUND) && negb (rc =? ERROR_FILE_NOT_FOUND) then
          Ret NULL (with_errno EPERM wo)
        else if Z.land oflag O_CREAT =? 0 then Ret NULL (with_errno ENOENT wo)
        else
          match CreateSemaphoreA NULL (to_int value) SEM_VALUE_MAX
                  (Some (global_name name)) wo with
          | Ret h wk =>
              if h =? NULL then Ret NULL (with_errno ENOSPC wk)
              else Ret pv (with_mem (<[pv := Cell true h]> (mem w)) wk)
          | Blocked => Blocked
          | Undefined => Undefined
          end
  | Blocked => Blocked
  | Undefined => Undefined
  end.
Proof.
  intros Hval Hlen Hheap. rewrite sem_open_cases. cbn zeta.
  destruct (name_guard_passes name Hlen) as [-> Hguard].
  rewrite (proj2 (Z.ltb_ge SEM_VALUE_MAX value)) by lia.
  cbn [orb]. by rewrite Hguard, Hheap.
Qed.

(** Opening an existing semaphore without exclusive creation. *)
Lemma sem_open_found name oflag mode value w id o :
  value <= SEM_VALUE_MAX ->
  1 <= Z.of_nat (strlen name) <= 504 ->
  heap_exhausted (env w) = false ->
  open_refused (env w) !! global_name name = None ->
  named_object (global_name name) w = Some (id, o) ->
  Z.land oflag O_CREAT = 0 \/ Z.land oflag O_EXCL = 0 ->
  sem_open name oflag mode value w =
  Ret (fresh_key (mem w))
    (with_mem (<[fresh_key (mem w) := Cell true (fresh_key (handles w))]> (mem w))
       (with_kernel (<[fresh_key (handles w) := Handle id SEMAPHORE_MODIFY_STATE]>
                       (handles w))
          (<[id := Ksem (k_count o) (k_max o) (k_name o) (S (k_refs o))]> (objects w))
          (names w) w)).
Proof.
  intros Hval Hlen Hheap Href Hobj Hflags.
  rewrite sem_open_valid, OpenSemaphoreA_cases, Href, Hobj by done.
  cbn zeta. rewrite fresh_key_not_null. cbn [negb].
  destruct Hflags as [-> | ->]; cbn; [done|].
  by rewrite andb_false_r.
Qed.

(** Opening an existing semaphore with exclusive creation. *)
Lemma sem_open_excl_found name oflag mode value w id o :
  value <= SEM_VALUE_MAX ->
  1 <= Z.of_nat (strlen name) <= 504 ->
  heap_exhausted (env w) = false ->
  open_refused (env w) !! global_name name = None ->
  named_object (global_name name) w = Some (id, o) ->
  Z.land oflag O_CREAT <> 0 -> Z.land oflag O_EXCL <> 0 ->
  exists w',
    sem_open name oflag mode value w = Ret NULL w' /\
    errno w' = Some EEXIST /\ handles w' = handles w /\ mem w' = mem w /\
    ((0 < k_refs o)%nat -> w' = with_errno EEXIST w).
Proof.
  intros Hval Hlen Hheap Href Hobj Hcreat Hexcl.
  rewrite sem_open_valid, OpenSemaphoreA_cases, Href, Hobj by done.
  cbn zeta. rewrite fresh_key_not_null. cbn [negb].
  rewrite (proj2 (Z.eqb_neq _ 0) Hcreat), (proj2 (Z.eqb_neq _ 0) Hexcl). cbn [negb andb].
  destruct (CloseHandle_handles w id
              (Ksem (k_count o) (k_max o) (k_name o) (S (k_refs o)))
                SEMAPHORE_MODIFY_STATE)
    as (wc & Hclose & Hh & Hm & _).
  rewrite Hclose. exists (with_errno EEXIST wc). cbn.
  repeat split; try done.
  intros Hrefs. f_equal.
  assert (Ho : objects w !! id = Some o).
  { unfold named_object in Hobj. destruct (names w !! global_name name); [|done].
    destruct (objects w !! z) eqn:E; [|done]. by injection Hobj as -> ->. }
  rewrite (CloseHandle_just_opened w id o _ Ho Hrefs) in Hclose. by injection Hclose.
Qed.

(** C1. For every existing named semaphore, [sem_open] without exclusive
    creation returns a handle on the existing object, whose count it leaves
    alone, and the pointer returned and the state reached are the same for
    every initial value (bounded by SEM_VALUE_MAX, as in [sem_init]): the
    initial value has no effect when the name already exists.  The handle
    has the one right [sem_open] asks for, SEMAPHORE_MODIFY_STATE. *)
Theorem sem_open_existing_ignores_value name oflag mode w id o :
  1 <= Z.of_nat (strlen name) <= 504 ->
  heap_exhausted (env w) = false ->
  open_refused (env w) !! global_name name = None ->
  named_object (global_name name) w = Some (id, o) ->
  Z.land oflag O_CREAT = 0 \/ Z.land oflag O_EXCL = 0 ->
  exists pv w',
    (forall value, value <= SEM_VALUE_MAX ->
                   sem_open name oflag mode value w = Ret pv w') /\
    handle_on pv w' id (Ksem (k_count o) (k_max o) (k_name o) (S (k_refs o)))
      SEMAPHORE_MODIFY_STATE /\
    sem_count pv w' = Some (k_count o) /\
    errno w' = errno w /\ names w' = names w.
Proof.
  intros Hlen Hheap Href Hobj Hflags.
  eexists _, _. split.
  { intros value Hval. by apply (sem_open_found _ _ _ _ _ id o). }
  split.
  { split; [apply fresh_key_nonzero|].
    eexists. cbn. rewrite lookup_insert_eq. split; [done|]. cbn.
    by rewrite !lookup_insert_eq. }
  split; [|done].
  unfold sem_count. cbn. rewrite lookup_insert_eq. cbn.
  by rewrite !lookup_insert_eq.
Qed.


(** A successful exclusive creation registers a new object under the
    name. *)
Lemma sem_open_excl_created name oflag mode value w pv w1 :
  Z.land oflag O_CREAT <> 0 -> Z.land oflag O_EXCL <> 0 ->
  open_refused (env w) !! global_name name = None ->
  1 <= Z.of_nat (strlen name) <= 504 ->
  sem_open name oflag mode value w = Ret pv w1 -> pv <> NULL ->
  value <= SEM_VALUE_MAX /\
  env w1 = env w /\ heap_exhausted (env w) = false /\
  named_object (global_name name) w1
  = Some (fresh_key (objects w),
          Ksem (to_int value) SEM_VALUE_MAX (Some (global_name name)) 1).
Proof.
  intros Hcreat Hexcl Href Hlen. rewrite sem_open_cases. cbn zeta.
  destruct (name_guard_passes name Hlen) as [-> Hguard].
  destruct (SEM_VALUE_MAX <? value) eqn:Hval; [by intros [= <- _] []|].
  apply Z.ltb_ge in Hval. cbn [orb]. rewrite Hguard.
  destruct (heap_exhausted (env w)); [by intros [= <- _] []|].
  fold (global_name name).
  rewrite OpenSemaphoreA_cases, Href.
  rewrite (proj2 (Z.eqb_neq _ 0) Hcreat), (proj2 (Z.eqb_neq _ 0) Hexcl). cbn [negb andb].
  destruct (named_object (global_name name) w) as [[id o]|] eqn:Hobj.
  { rewrite fresh_key_not_null. cbn [negb].
    destruct (CloseHandle_handles w id
                (Ksem (k_count o) (k_max o) (k_name o) (S (k_refs o)))
                SEMAPHORE_MODIFY_STATE)
      as (wc & -> & _).
    by intros [= <- _] []. }
  cbn. unfold CreateSemaphoreA. cbn. rewrite Href.
  destruct (kernel_exhausted (env w)); cbn; [by intros [= <- _] []|].
  destruct ((to_int value <? 0) || (SEM_VALUE_MAX <=? 0)
            || (SEM_VALUE_MAX <? to_int value)); cbn; [by intros [= <- _] []|].
  change (named_object (global_name name) (with_last_error ERROR_FILE_NOT_FOUND w))
    with (named_object (global_name name) w).
  rewrite Hobj. cbn. rewrite fresh_key_not_null.
  intros [= <- <-] _. cbn. repeat split; try done.
  unfold named_object. cbn. by rewrite !lookup_insert_eq.
Qed.

(** C5. For every name under which a semaphore object exists, [sem_open]
    with both O_CREAT and O_EXCL closes the reference it has just opened,
    frees its storage and fails with EEXIST, returning NULL; in particular a
    second exclusive creation under a name fails so after a first one
    succeeded. *)
Theorem sem_open_exclusive_existing :
  (forall name oflag mode value w id o,
      value <= SEM_VALUE_MAX ->
      1 <= Z.of_nat (strlen name) <= 504 ->
      heap_exhausted (env w) = false ->
      open_refused (env w) !! global_name name = None ->
      named_object (global_name name) w = Some (id, o) ->
      Z.land oflag O_CREAT <> 0 -> Z.land oflag O_EXCL <> 0 ->
      exists w',
        sem_open name oflag mode value w = Ret NULL w' /\
        errno w' = Some EEXIST /\ handles w' = handles w /\ mem w' = mem w /\
        ((0 < k_refs o)%nat -> w' = with_errno EEXIST w)) /\
  (forall name oflag mode value w pv w1,
      1 <= Z.of_nat (strlen name) <= 504 ->
      open_refused (env w) !! global_name name = None ->
      Z.land oflag O_CREAT <> 0 -> Z.land oflag O_EXCL <> 0 ->
      sem_open name oflag mode value w = Ret pv w1 -> pv <> NULL ->
      forall mode',
        sem_open name oflag mode' value w1 = Ret NULL (with_errno EEXIST w1)).
Proof.
  split.
  - intros. by apply (sem_open_excl_found _ _ _ _ _ id o).
  - intros name oflag mode value w pv w1 Hlen Href Hcreat Hexcl Hopen Hpv mode'.
    destruct (sem_open_excl_created _ _ _ _ _ _ _ Hcreat Hexcl Href Hlen Hopen Hpv)
      as (Hval & Henv & Hheap & Hobj).
    rewrite <- Henv in Href, Hheap.
    destruct (sem_open_excl_found name oflag mode' value w1 _ _
                Hval Hlen Hheap Href Hobj Hcreat Hexcl)
      as (w2 & -> & _ & _ & _ & Hw2).
    f_equal. apply Hw2. cbn. lia.
Qed.

(** C6. When the native open fails, [sem_open] tells the reasons apart:
    any reason other than not-found gives EPERM; not-found without O_CREAT
    gives ENOENT; not-found with O_CREAT goes on to create the object, gives
    ENOSPC if the creation fails and otherwise returns a handle on what was
    created, which under a free name is a new object holding [value]. *)
Theorem sem_open_native_open_fails name oflag mode value w wo :
  value <= SEM_VALUE_MAX ->
  1 <= Z.of_nat (strlen name) <= 504 ->
  heap_exhausted (env w) = false ->
  OpenSemaphoreA SEMAPHORE_MODIFY_STATE FALSE (global_name name) w = Ret NULL wo ->
  let rc := last_error wo in
  let not_found := rc = ERROR_SEM_NOT_FOUND \/ rc = ERROR_FILE_NOT_FOUND in
  (~ not_found ->
   sem_open name oflag mode value w = Ret NULL (with_errno EPERM wo)) /\
  (not_found -> Z.land oflag O_CREAT = 0 ->
   sem_open name oflag mode value w = Ret NULL (with_errno ENOENT wo)) /\
  (not_found -> Z.land oflag O_CREAT <> 0 ->
   exists h wk,
     CreateSemaphoreA NULL (to_int value) SEM_VALUE_MAX (Some (global_name name)) wo
     = Ret h wk /\
     (h = NULL ->
      sem_open name oflag mode value w = Ret NULL (with_errno ENOSPC wk)) /\
     (h <> NULL ->
      sem_open name oflag mode value w
      = Ret (fresh_key (mem w))
          (with_mem (<[fresh_key (mem w) := Cell true h]> (mem w)) wk))) /\
  (Z.land oflag O_CREAT <> 0 ->
   open_refused (env w) !! global_name name = None ->
   kernel_exhausted (env w) = false -> 0 <= value ->
   exists pv w',
     sem_open name oflag mode value w = Ret pv w' /\
     wraps pv w' (fresh_key (objects w))
       (Ksem value SEM_VALUE_MAX (Some (global_name name)) 1) /\
     names w' !! global_name name = Some (fresh_key (objects w))).
Proof.
  intros Hval Hlen Hheap Hopen rc not_found.
  rewrite sem_open_valid, Hopen by done. cbn. fold rc.
  assert (Hnf : not_found ->
                negb (rc =? ERROR_SEM_NOT_FOUND) && negb (rc =? ERROR_FILE_NOT_FOUND)
                = false).
  { intros [H|H]; rewrite H; by rewrite ?Z.eqb_refl, ?andb_false_r. }
  split; [|split; [|split]].
  - intros Hrc.
    rewrite (proj2 (Z.eqb_neq rc ERROR_SEM_NOT_FOUND)),
            (proj2 (Z.eqb_neq rc ERROR_FILE_NOT_FOUND)); [done| |];
      intros H; apply Hrc; [by right|by left].
  - intros Hrc Hcreat. by rewrite (Hnf Hrc), Hcreat.
  - intros Hrc Hcreat. rewrite (Hnf Hrc), (proj2 (Z.eqb_neq _ 0) Hcreat).
    destruct (CreateSemaphoreA_returns (to_int value) SEM_VALUE_MAX
                (Some (global_name name)) wo) as (h & wk & Hcreate).
    exists h, wk. rewrite Hcreate. split; [done|]. split.
    + intros ->. done.
    + intros Hh. by rewrite (proj2 (Z.eqb_neq h NULL)).
  - intros Hcreat Href Hker Hpos.
    destruct (OpenSemaphoreA_null _ _ _ _ _ Hopen) as [Hwo Hfree].
    destruct (Hfree Href) as [Hobj Hrc].
    assert (Hrc' : not_found) by (by right).
    rewrite (Hnf Hrc'), (proj2 (Z.eqb_neq _ 0) Hcreat).
    rewrite to_int_small by (unfold INT_MAX in *; lia).
    rewrite Hwo.
    rewrite (CreateSemaphoreA_new value SEM_VALUE_MAX (global_name name)
               (with_last_error (last_error wo) w) Hker);
      [|lia|lia|exact Href|exact Hobj].

    rewrite fresh_key_not_null. eexists _, _. split; [reflexivity|].
    cbn. rewrite lookup_insert_eq. split; [|done].
    apply (wraps_all_access _ _ (Cell true (fresh_key (handles w))));
      [apply fresh_key_nonzero|cbn; by rewrite lookup_insert_eq..].
Qed.


(** *** Failure paths *)

(** The kernel calls leave [errno] alone. *)
Lemma OpenSemaphoreA_errno access inherit n w h wo :
  OpenSemaphoreA access inherit n w = Ret h wo -> errno wo = errno w.
Proof.
  rewrite OpenSemaphoreA_cases.
  destruct (open_refused (env w) !! n); [by intros [= _ <-]|].
  destruct (named_object n w) as [[id o]|]; by intros [= _ <-].
Qed.

Lemma CreateSemaphoreA_errno init max lpName w h wk :
  CreateSemaphoreA NULL init max lpName w = Ret h wk -> errno wk = errno w.
Proof.
  unfold CreateSemaphoreA.
  destruct (kernel_exhausted (env w)); [by intros [= _ <-]|].
  destruct ((init <? 0) || (max <=? 0) || (max <? init)); [by intros [= _ <-]|].
  destruct lpName as [n|]; [|by intros [= _ <-]].
  destruct (open_refused (env w) !! n); [by intros [= _ <-]|].
  destruct (named_object n w) as [[id o]|]; by intros [= _ <-].
Qed.

(** A call of [sem_open] that returns a handle has not touched [errno]. *)
Lemma sem_open_success_errno name oflag mode value w pv w' :
  sem_open name oflag mode value w = Ret pv w' -> pv <> NULL -> errno w' = errno w.
Proof.
  rewrite sem_open_cases. cbn zeta.
  destruct (_ || _ || _); [by intros [= <- _]|].
  destruct (heap_exhausted (env w)); [by intros [= <- _]|].
  destruct (OpenSemaphoreA _ _ _ w) as [h wo| |] eqn:Hopen; [|done|done].
  apply OpenSemaphoreA_errno in Hopen.
  destruct (negb (h =? NULL)).
  - destruct (negb _ && negb _).
    + destruct (CloseHandle h wo); [|done|done]. by intros [= <- _].
    + by intros [= _ <-].
  - cbn zeta. destruct (negb _ && negb _); [by intros [= <- _]|].
    destruct (Z.land oflag O_CREAT =? 0); [by intros [= <- _]|].
    destruct (CreateSemaphoreA _ _ _ _ wo) as [h' wk| |] eqn:Hcreate; [|done|done].
    apply CreateSemaphoreA_errno in Hcreate.
    destruct (h' =? NULL); [by intros [= <- _]|].
    intros [= _ <-] _. cbn. congruence.
Qed.

(** A call of [sem_open] that returns NULL: the memory and the handle table
    are as before, and [errno] holds EINVAL exactly when the guard turned the
    arguments down. *)
Lemma sem_open_null name oflag mode value w w' :
  sem_open name oflag mode value w = Ret NULL w' ->
  mem w' = mem w /\ handles w' = handles w /\
  let len := to_int (Z.of_nat (strlen name)) in
  if (SEM_VALUE_MAX <? value) || (504 <? len) || (len <? 1) then
    w' = with_errno EINVAL w
  else
    exists e, errno w' = Some e /\ e ∈ [ENOMEM; EEXIST; EPERM; ENOENT; ENOSPC].
Proof.
  rewrite sem_open_cases. cbn zeta.
  destruct ((SEM_VALUE_MAX <? value) || (504 <? to_int (Z.of_nat (strlen name)))
            || (to_int (Z.of_nat (strlen name)) <? 1)).
  { by intros [= <-]. }
  destruct (heap_exhausted (env w)).
  { intros [= <-]. repeat split. exists ENOMEM. split; [done|in_list]. }
  set (lpName := qualified name _).
  rewrite OpenSemaphoreA_cases.
  assert (Hcreate : forall wo rc,
    wo = with_last_error rc w ->
    match CreateSemaphoreA NULL (to_int value) SEM_VALUE_MAX (Some lpName) wo with
    | Ret h wk =>
        if h =? NULL then Ret NULL (with_errno ENOSPC wk)
        else Ret (fresh_key (mem w))
               (with_mem (<[fresh_key (mem w) := Cell true h]> (mem w)) wk)
    | Blocked => Blocked
    | Undefined => Undefined
    end = Ret NULL w' ->
    mem w' = mem w /\ handles w' = handles w /\
    exists e, errno w' = Some e /\ e ∈ [ENOMEM; EEXIST; EPERM; ENOENT; ENOSPC]).
  { intros wo rc -> H.
    destruct (CreateSemaphoreA_returns (to_int value) SEM_VALUE_MAX (Some lpName)
                (with_last_error rc w)) as (h & wk & Hk).
    rewrite Hk in H. destruct (h =? NULL) eqn:Hh.
    - apply Z.eqb_eq in Hh as ->. apply CreateSemaphoreA_null in Hk.
      injection H as <-. rewrite Hk. cbn. repeat split.
      exists ENOSPC. split; [done|in_list].
    - injection H as H _. pose proof (fresh_key_pos (mem w)). unfold NULL in H. lia. }
  assert (Hfail : forall rc,
    (let wo := with_last_error rc w in
     if negb (last_error wo =? ERROR_SEM_NOT_FOUND)
        && negb (last_error wo =? ERROR_FILE_NOT_FOUND)
     then Ret NULL (with_errno EPERM wo)
     else if Z.land oflag O_CREAT =? 0 then Ret NULL (with_errno ENOENT wo)
     else match CreateSemaphoreA NULL (to_int value) SEM_VALUE_MAX (Some lpName) wo with
          | Ret h wk =>
              if h =? NULL then Ret NULL (with_errno ENOSPC wk)
              else Ret (fresh_key (mem w))
                     (with_mem (<[fresh_key (mem w) := Cell true h]> (mem w)) wk)
          | Blocked => Blocked
          | Undefined => Undefined
          end) = Ret NULL w' ->
    mem w' = mem w /\ handles w' = handles w /\
    exists e, errno w' = Some e /\ e ∈ [ENOMEM; EEXIST; EPERM; ENOENT; ENOSPC]).
  { intros rc. cbn zeta.
    destruct (negb _ && negb _).
    { intros [= <-]. repeat split. exists EPERM. split; [done|in_list]. }
    destruct (Z.land oflag O_CREAT =? 0).
    { intros [= <-]. repeat split. exists ENOENT. split; [done|in_list]. }
    intros H. by apply (Hcreate (with_last_error rc w) rc). }
  destruct (open_refused (env w) !! lpName) as [rc|].
  { change (NULL =? NULL) with true. cbn [negb]. apply (Hfail rc). }
  destruct (named_object lpName w) as [[id o]|].
  - rewrite fresh_key_not_null. cbn [negb].
    destruct (negb (Z.land oflag O_CREAT =? 0) && negb (Z.land oflag O_EXCL =? 0)).
    + destruct (CloseHandle_handles w id
                  (Ksem (k_count o) (k_max o) (k_name o) (S (k_refs o)))
                SEMAPHORE_MODIFY_STATE)
        as (wc & -> & Hh & Hm & _).
      intros [= <-]. cbn. repeat split; try done.
      exists EEXIST. split; [done|in_list].
    + intros [= H _]. pose proof (fresh_key_pos (mem w)). unfold NULL in H. lia.
  - change (NULL =? NULL) with true. cbn [negb]. apply (Hfail ERROR_FILE_NOT_FOUND).
Qed.


(** C10. Every failure path of [sem_init] returns -1 with [errno] set and
    leaves the memory as it was: the caller's cell is not written and the
    storage of the handle is freed again.  Every failure path of [sem_open]
    returns NULL with [errno] set, and leaves the memory and the handle
    table as they were: the storage of the handle is freed and, with
    exclusive creation, the reference just opened is closed.  A call that
    succeeds does not touch [errno]. *)
Theorem failure_paths_release :
  (forall sem pshared value w r w',
      sem_init sem pshared value w = Ret r w' ->
      (r <> 0 ->
       r = -1 /\ mem w' = mem w /\ handles w' = handles w /\
       exists e, errno w' = Some e /\ e ∈ [EINVAL; EPERM; ENOMEM; ENOSPC]) /\
      (r = 0 -> errno w' = errno w)) /\
  (forall name oflag mode value w pv w',
      sem_open name oflag mode value w = Ret pv w' ->
      (pv = NULL ->
       mem w' = mem w /\ handles w' = handles w /\
       exists e, errno w' = Some e /\
                 e ∈ [EINVAL; ENOMEM; EEXIST; EPERM; ENOENT; ENOSPC]) /\
      (pv <> NULL -> errno w' = errno w)).
Proof.
  split.
  - intros sem pshared value w r w'. rewrite sem_init_cases.
    destruct ((sem =? NULL) || (SEM_VALUE_MAX <? value)).
    { intros [= <- <-]. split; [|done]. intros _. repeat split.
      exists EINVAL. split; [done|in_list]. }
    destruct (negb (pshared =? PTHREAD_PROCESS_PRIVATE)).
    { intros [= <- <-]. split; [|done]. intros _. repeat split.
      exists EPERM. split; [done|in_list]. }
    destruct (heap_exhausted (env w)).
    { intros [= <- <-]. split; [|done]. intros _. repeat split.
      exists ENOMEM. split; [done|in_list]. }
    cbn zeta.
    destruct (CreateSemaphoreA_returns (to_int value) SEM_VALUE_MAX None w)
      as (h & wk & Hk).
    rewrite Hk. destruct (h =? NULL) eqn:Hh.
    + apply Z.eqb_eq in Hh as ->. apply CreateSemaphoreA_null in Hk.
      intros [= <- <-]. split; [|done]. intros _. rewrite Hk. cbn. repeat split.
      exists ENOSPC. split; [done|in_list].
    + destruct (<[fresh_key (mem w) := Cell true h]> (mem w) !! sem); [|done].
      intros [= <- <-]. split; [done|]. intros _. cbn.
      rewrite CreateSemaphoreA_unnamed in Hk.
      destruct (kernel_exhausted (env w)); [by injection Hk as <- <-|].
      destruct (_ || _ || _); by injection Hk as <- <-.
  - intros name oflag mode value w pv w' Hopen. split.
    + intros ->. destruct (sem_open_null _ _ _ _ _ _ Hopen) as (Hm & Hh & Hcase).
      split; [done|]. split; [done|]. cbn zeta in Hcase.
      destruct (_ || _ || _).
      * rewrite Hcase. exists EINVAL. split; [done|in_list].
      * destruct Hcase as (e & He & Hin). exists e. split; [done|].
        revert Hin. rewrite !elem_of_cons, !elem_of_nil. intuition.
    + intros Hpv. by apply (sem_open_success_errno _ _ _ _ _ _ _ Hopen).
Qed.


(** ** Further properties of [sem.c] *)

(** *** What the waits and [sem_post] leave alone *)

Lemma ReleaseSemaphore_frame h n p w r w' :
  ReleaseSemaphore h n p w = Ret r w' ->
  mem w' = mem w /\ handles w' = handles w /\ names w' = names w /\
  env w' = env w /\ errno w' = errno w /\
  (r = 0 /\ objects w' = objects w \/ r = 1).
Proof.
  unfold ReleaseSemaphore.
  destruct (handles w !! h) as [[id access]|]; [|intros [= <- <-]; cbn; auto 10].
  destruct (Z.land access _ =? 0); [intros [= <- <-]; cbn; auto 10|].
  destruct (objects w !! id) as [o|]; [|intros [= <- <-]; cbn; auto 10].
  destruct (_ || _); intros [= <- <-]; cbn; auto 10.
Qed.

Lemma WaitForSingleObject_frame h ms w r w' :
  WaitForSingleObject h ms w = Ret r w' ->
  mem w' = mem w /\ handles w' = handles w /\ names w' = names w /\
  env w' = env w /\ errno w' = errno w /\
  (r = WAIT_OBJECT_0 \/
   (r = WAIT_TIMEOUT \/ r = WAIT_FAILED) /\ objects w' = objects w).
Proof.
  unfold WaitForSingleObject.
  destruct (handles w !! h) as [[id access]|]; [|intros [= <- <-]; cbn; auto 10].
  destruct (Z.land access _ =? 0); [intros [= <- <-]; cbn; auto 10|].
  destruct (objects w !! id) as [o|]; [|intros [= <- <-]; cbn; auto 10].
  destruct (0 <? k_count o); [intros [= <- <-]; cbn; auto 10|].
  destruct (ms =? INFINITE); [done|]. intros [= <- <-]; cbn; auto 10.
Qed.

(** X1. [sem_post], [sem_wait], [sem_trywait] and [sem_timedwait] return 0
    or -1 and nothing else.  They never touch the memory, the handle table
    or the namespace.  A return of 0 leaves [errno] as it was; a return of
    -1 sets it, to EINVAL for [sem_post], to EINVAL or EPERM for [sem_wait]
    and to EINVAL, ETIMEDOUT or EPERM for the other two, and leaves every
    count as it was. *)
Theorem status_of_operations sem abs_timeout w :
  status_contract [EINVAL] (sem_post sem) w /\
  status_contract [EINVAL; EPERM] (sem_wait sem) w /\
  status_contract [EINVAL; ETIMEDOUT; EPERM] (sem_trywait sem) w /\
  status_contract [EINVAL; ETIMEDOUT; EPERM] (sem_timedwait sem abs_timeout) w.
Proof.
  assert (Hfail : forall (allowed : list errno_code) e w0,
    e ∈ allowed ->
    mem w0 = mem w -> handles w0 = handles w -> names w0 = names w ->
    env w0 = env w -> objects w0 = objects w ->
    forall r w', set_errno e w0 = Ret r w' ->
    mem w' = mem w /\ handles w' = handles w /\ names w' = names w /\
    env w' = env w /\
    ((r = 0 /\ errno w' = errno w) \/
     (r = -1 /\ objects w' = objects w /\
      exists e', errno w' = Some e' /\ e' ∈ allowed))).
  { intros allowed e w0 He Hm Hh Hn Hv Ho r w' [= <- <-]. cbn.
    repeat split; try done. right. repeat split; try done. by exists e. }
  unfold status_contract. split; [|split; [|split]].
  - intros r w'. unfold sem_post.
    destruct (_ || _); [apply (Hfail [EINVAL] EINVAL w); by in_list|].
    unfold bind, load. destruct (mem w !! sem) as [c|]; [|done].
    destruct (ReleaseSemaphore (c_val c) 1 NULL w) as [rel wr| |] eqn:Hrel; [|done|done].
    destruct (ReleaseSemaphore_frame _ _ _ _ _ _ Hrel)
      as (Hm & Hh & Hn & Hv & He & [[-> Ho]| ->]).
    + apply (Hfail [EINVAL] EINVAL wr); by in_list.
    + intros [= <- <-]. repeat split; try done. left. by split.
  - intros r w'. unfold sem_wait.
    destruct (_ || _); [apply (Hfail [EINVAL; EPERM] EINVAL w); by in_list|].
    unfold bind, load. destruct (mem w !! sem) as [c|]; [|done].
    destruct (WaitForSingleObject (c_val c) INFINITE w) as [rc ww| |] eqn:Hwait;
      [|done|done].
    destruct (WaitForSingleObject_frame _ _ _ _ _ Hwait)
      as (Hm & Hh & Hn & Hv & He & [->|[[-> | ->] Ho]]).
    + intros [= <- <-]. repeat split; try done. left. by split.
    + apply (Hfail [EINVAL; EPERM] EPERM ww); by in_list.
    + apply (Hfail [EINVAL; EPERM] EPERM ww); by in_list.
  - intros r w'. unfold sem_trywait.
    destruct (_ || _);
      [apply (Hfail [EINVAL; ETIMEDOUT; EPERM] EINVAL w); by in_list|].
    unfold bind, load. destruct (mem w !! sem) as [c|]; [|done].
    destruct (WaitForSingleObject (c_val c) 0 w) as [rc ww| |] eqn:Hwait; [|done|done].
    destruct (WaitForSingleObject_frame _ _ _ _ _ Hwait)
      as (Hm & Hh & Hn & Hv & He & [->|[[-> | ->] Ho]]).
    + intros [= <- <-]. repeat split; try done. left. by split.
    + apply (Hfail [EINVAL; ETIMEDOUT; EPERM] ETIMEDOUT ww); by in_list.
    + apply (Hfail [EINVAL; ETIMEDOUT; EPERM] EPERM ww); by in_list.
  - intros r w'. unfold sem_timedwait.
    destruct (_ || _);
      [apply (Hfail [EINVAL; ETIMEDOUT; EPERM] EINVAL w); by in_list|].
    unfold bind, load, arch_rel_time_in_ms. destruct (mem w !! sem) as [c|]; [|done].
    destruct (WaitForSingleObject (c_val c) _ w) as [rc ww| |] eqn:Hwait; [|done|done].
    destruct (WaitForSingleObject_frame _ _ _ _ _ Hwait)
      as (Hm & Hh & Hn & Hv & He & [->|[[-> | ->] Ho]]).
    + intros [= <- <-]. repeat split; try done. left. by split.
    + apply (Hfail [EINVAL; ETIMEDOUT; EPERM] ETIMEDOUT ww); by in_list.
    + apply (Hfail [EINVAL; ETIMEDOUT; EPERM] EPERM ww); by in_list.
Qed.


(** *** Counting *)

Lemma set_count_same id o w :
  objects w !! id = Some o -> set_count id (k_count o) w = w.
Proof.
  intros Ho. unfold set_count. rewrite Ho. destruct w, o. unfold with_kernel. cbn in *.
  f_equal. by apply insert_id.
Qed.

Lemma set_count_twice id c c' w : set_count id c (set_count id c' w) = set_count id c w.
Proof.
  unfold set_count. destruct (objects w !! id) as [o|] eqn:Ho.
  - cbn. rewrite lookup_insert_eq. cbn. unfold with_kernel. cbn.
    by rewrite insert_insert_eq.
  - by rewrite Ho.
Qed.

Lemma wraps_set_count pv w id o c :
  wraps pv w id o ->
  wraps pv (set_count id c w) id (Ksem c (k_max o) (k_name o) (k_refs o)).
Proof.
  intros Hw. pose proof Hw as (_ & _ & _ & _ & Ho).
  unfold set_count. rewrite Ho. by apply (wraps_update pv w id o).
Qed.

(** The three operations on a valid handle, in terms of [set_count]. *)
Lemma sem_post_count pv w id o :
  wraps pv w id o -> k_count o < k_max o ->
  sem_post pv w = Ret 0 (set_count id (k_count o + 1) w).
Proof.
  intros Hw Hlt. pose proof Hw as (_ & _ & _ & _ & Ho).
  rewrite (sem_post_valid _ _ _ _ Hw). zbool. unfold set_count. by rewrite Ho.
Qed.

Lemma sem_wait_count pv w id o :
  wraps pv w id o -> 0 < k_count o ->
  sem_wait pv w = Ret 0 (set_count id (k_count o - 1) w).
Proof.
  intros Hw Hlt. pose proof Hw as (_ & _ & _ & _ & Ho).
  rewrite (sem_wait_valid _ _ _ _ Hw). zbool. unfold set_count. by rewrite Ho.
Qed.

Lemma sem_trywait_count pv w id o :
  wraps pv w id o -> 0 < k_count o ->
  sem_trywait pv w = Ret 0 (set_count id (k_count o - 1) w).
Proof.
  intros Hw Hlt. pose proof Hw as (_ & _ & _ & _ & Ho).
  rewrite (sem_trywait_valid _ _ _ _ Hw). zbool. unfold set_count. by rewrite Ho.
Qed.

(** On a positive count [sem_timedwait] does not wait, whatever the
    deadline. *)
Lemma sem_timedwait_count pv abs_timeout w id o :
  wraps pv w id o -> 0 < k_count o ->
  sem_timedwait pv abs_timeout w = Ret 0 (set_count id (k_count o - 1) w).
Proof.
  intros Hw Hlt. pose proof Hw as (Hpv & c & Hc & (access & Hh & _ & Hwait) & Ho).
  unfold sem_timedwait. rewrite (proj2 (Z.eqb_neq pv NULL)) by done. cbn [orb].
  unfold bind, load, arch_rel_time_in_ms, WaitForSingleObject.
  rewrite Hc, Hh, (proj2 (Z.eqb_neq _ 0) Hwait), Ho. zbool. cbn. unfold set_count. by rewrite Ho.
Qed.

(** [n] posts in a row, when there is room for them. *)
Lemma repeat_post pv id (n : nat) :
  forall w o, wraps pv w id o -> k_count o + Z.of_nat n <= k_max o ->
  repeat_call n (sem_post pv) w = Ret 0 (set_count id (k_count o + Z.of_nat n) w).
Proof.
  induction n as [|n IH]; intros w o Hw Hroom.
  - pose proof Hw as (_ & _ & _ & _ & Ho). cbn [repeat_call]. unfold ret.
    rewrite Z.add_0_r. by rewrite (set_count_same _ _ _ Ho).
  - cbn [repeat_call]. unfold bind.
    rewrite (sem_post_count _ _ _ _ Hw) by lia. cbn.
    rewrite (IH _ _ (wraps_set_count _ _ _ _ (k_count o + 1) Hw)) by (cbn; lia).
    cbn. rewrite set_count_twice. do 2 f_equal. lia.
Qed.

(** [n] waits in a row, when the count covers them. *)
Lemma repeat_wait pv id (n : nat) :
  forall w o, wraps pv w id o -> Z.of_nat n <= k_count o ->
  repeat_call n (sem_wait pv) w = Ret 0 (set_count id (k_count o - Z.of_nat n) w).
Proof.
  induction n as [|n IH]; intros w o Hw Hroom.
  - pose proof Hw as (_ & _ & _ & _ & Ho). cbn [repeat_call]. unfold ret.
    rewrite Z.sub_0_r. by rewrite (set_count_same _ _ _ Ho).
  - cbn [repeat_call]. unfold bind.
    rewrite (sem_wait_count _ _ _ _ Hw) by lia. cbn.
    rewrite (IH _ _ (wraps_set_count _ _ _ _ (k_count o - 1) Hw)) by (cbn; lia).
    cbn. rewrite set_count_twice. do 2 f_equal. lia.
Qed.

(** [n] try-waits in a row: they succeed while the count lasts. *)
Lemma repeat_trywait pv id (n : nat) :
  forall w o, wraps pv w id o -> 0 <= k_count o ->
  repeat_call n (sem_trywait pv) w =
  if Z.of_nat n <=? k_count o then Ret 0 (set_count id (k_count o - Z.of_nat n) w)
  else Ret (-1) (with_errno ETIMEDOUT (set_count id 0 w)).
Proof.
  induction n as [|n IH]; intros w o Hw Hpos.
  - pose proof Hw as (_ & _ & _ & _ & Ho). cbn [repeat_call]. unfold ret. zbool.
    rewrite Z.sub_0_r. by rewrite (set_count_same _ _ _ Ho).
  - cbn [repeat_call]. unfold bind.
    destruct (Z.eq_dec (k_count o) 0) as [Hzero|Hnz].
    + rewrite (sem_trywait_valid _ _ _ _ Hw). zbool. cbn.
      pose proof Hw as (_ & _ & _ & _ & Ho).
      rewrite <- Hzero. by rewrite (set_count_same _ _ _ Ho).
    + rewrite (sem_trywait_count _ _ _ _ Hw) by lia. cbn.
      rewrite (IH _ _ (wraps_set_count _ _ _ _ (k_count o - 1) Hw)) by (cbn; lia).
      cbn. rewrite !set_count_twice.
      destruct (Z.of_nat n <=? k_count o - 1) eqn:E.
      * apply Z.leb_le in E. zbool. do 2 f_equal. lia.
      * apply Z.leb_gt in E. by zbool.
Qed.

(** X2. On a valid handle with room for them, [n] calls of [sem_post]
    followed by [n] calls of [sem_wait] all return 0; the count is [n] higher
    in between and the state afterwards is the state before. *)
Theorem posts_then_waits pv w id o (n : nat) :
  wraps pv w id o -> 0 <= k_count o -> k_count o + Z.of_nat n <= k_max o ->
  exists w1,
    repeat_call n (sem_post pv) w = Ret 0 w1 /\
    sem_count pv w1 = Some (k_count o + Z.of_nat n) /\
    repeat_call n (sem_wait pv) w1 = Ret 0 w.
Proof.
  intros Hw Hpos Hroom.
  pose proof (wraps_set_count _ _ _ _ (k_count o + Z.of_nat n) Hw) as Hw1.
  eexists. split; [by apply (repeat_post pv id n w o)|].
  split; [by rewrite (sem_count_wraps _ _ _ _ Hw1)|].
  rewrite (repeat_wait pv id n _ _ Hw1) by (cbn; lia). cbn.
  rewrite set_count_twice. f_equal.
  replace (k_count o + Z.of_nat n - Z.of_nat n) with (k_count o) by lia.
  destruct Hw as (_ & _ & _ & _ & Ho). by apply set_count_same.
Qed.

(** X3. A semaphore of count [c] admits exactly [c] calls of [sem_trywait]:
    of [n] calls in a row all succeed when [n <= c], leaving [c - n]; when
    [n > c] the run stops with -1 and ETIMEDOUT on a count of 0. *)
Theorem trywait_drains pv w id o (n : nat) :
  wraps pv w id o -> 0 <= k_count o ->
  (Z.of_nat n <= k_count o ->
   exists w', repeat_call n (sem_trywait pv) w = Ret 0 w' /\
              sem_count pv w' = Some (k_count o - Z.of_nat n) /\
              errno w' = errno w) /\
  (k_count o < Z.of_nat n ->
   exists w', repeat_call n (sem_trywait pv) w = Ret (-1) w' /\
              sem_count pv w' = Some 0 /\ errno w' = Some ETIMEDOUT).
Proof.
  intros Hw Hpos. rewrite (repeat_trywait pv id n w o Hw Hpos).
  pose proof Hw as (_ & _ & _ & _ & Ho). split; intros Hn; zbool.
  - eexists. split; [done|].
    rewrite (sem_count_wraps _ _ _ _ (wraps_set_count _ _ _ _ _ Hw)).
    split; [done|]. unfold set_count. by rewrite Ho.
  - eexists. split; [done|]. split; [|done].
    pose proof (wraps_set_count _ _ _ _ 0 Hw) as (Hpv & c & Hc & (access & Hh & _) & Ho').
    unfold sem_count. cbn. rewrite Hc, Hh. cbn. by rewrite Ho'.
Qed.

(** X4. Where the waits agree and where they part: on a positive count
    [sem_wait], [sem_trywait] and [sem_timedwait], whatever its deadline,
    all return 0 in the same state, with the count one lower; on a count of
    0 [sem_trywait] returns -1 with ETIMEDOUT and changes nothing else, where
    [sem_wait] does not return. *)
Theorem waits_agree pv abs_timeout w id o :
  wraps pv w id o ->
  (0 < k_count o ->
   exists w', sem_trywait pv w = Ret 0 w' /\
              sem_wait pv w = Ret 0 w' /\
              sem_timedwait pv abs_timeout w = Ret 0 w' /\
              sem_count pv w' = Some (k_count o - 1)) /\
  (k_count o <= 0 ->
   sem_trywait pv w = Ret (-1) (with_errno ETIMEDOUT w) /\
   sem_wait pv w = Blocked).
Proof.
  intros Hw. split.
  - intros Hpos. exists (set_count id (k_count o - 1) w).
    rewrite (sem_trywait_count _ _ _ _ Hw), (sem_wait_count _ _ _ _ Hw),
            (sem_timedwait_count _ _ _ _ _ Hw) by done.
    repeat split.
    by rewrite (sem_count_wraps _ _ _ _ (wraps_set_count _ _ _ _ _ Hw)).
  - intros Hzero.
    rewrite (sem_trywait_valid _ _ _ _ Hw), (sem_wait_valid _ _ _ _ Hw). by zbool.
Qed.

(** X5. [sem_post] respects the maximum: below it the count goes up by
    one; at it the call returns -1 with EINVAL and the count stays.  So a
    semaphore initialised to SEM_VALUE_MAX cannot be posted. *)
Theorem sem_post_respects_maximum :
  (forall pv w id o, wraps pv w id o ->
     (k_count o < k_max o ->
      exists w', sem_post pv w = Ret 0 w' /\ sem_count pv w' = Some (k_count o + 1)) /\
     (k_max o <= k_count o ->
      exists w', sem_post pv w = Ret (-1) w' /\ errno w' = Some EINVAL /\
                 sem_count pv w' = Some (k_count o))) /\
  (forall sem w w1 c,
     mem w !! sem = Some c ->
     sem_init sem PTHREAD_PROCESS_PRIVATE SEM_VALUE_MAX w = Ret 0 w1 ->
     exists pv w',
       c_val <$> mem w1 !! sem = Some pv /\
       sem_post pv w1 = Ret (-1) w' /\ errno w' = Some EINVAL /\
       sem_count pv w' = Some SEM_VALUE_MAX).
Proof.
  assert (Hgen : forall pv w id o, wraps pv w id o ->
     (k_count o < k_max o ->
      exists w', sem_post pv w = Ret 0 w' /\ sem_count pv w' = Some (k_count o + 1)) /\
     (k_max o <= k_count o ->
      exists w', sem_post pv w = Ret (-1) w' /\ errno w' = Some EINVAL /\
                 sem_count pv w' = Some (k_count o))).
  { intros pv w id o Hw. split; intros Hcmp.
    - eexists. split; [by apply (sem_post_count _ _ id o)|].
      by rewrite (sem_count_wraps _ _ _ _ (wraps_set_count _ _ _ _ _ Hw)).
    - rewrite (sem_post_valid _ _ _ _ Hw). zbool. eexists. split; [done|].
      split; [done|]. destruct Hw as (Hpv & c & Hc & (access & Hh & _) & Ho).
      unfold sem_count. cbn. rewrite Hc, Hh. cbn. by rewrite Ho. }
  split; [exact Hgen|].
  intros sem w w1 c Hc Hinit.
  assert (Hval : 0 <= SEM_VALUE_MAX <= SEM_VALUE_MAX) by lia.
  destruct (sem_init_success _ _ _ _ _ _ Hval Hc Hinit) as [Hsem Hw].
  destruct (Hgen _ _ _ _ Hw) as [_ Hmax].
  destruct Hmax as (w' & Hpost & Herr & Hcount); [cbn; lia|].
  exists (fresh_key (mem w)), w'. rewrite Hsem. by repeat split.
Qed.


(** *** The bounds of the counts *)

Lemma counts_bounded_same w w' :
  objects w' = objects w -> counts_bounded w -> counts_bounded w'.
Proof. intros Ho Hb id o. rewrite Ho. apply Hb. Qed.

Lemma counts_bounded_insert w w' id o :
  objects w' = <[id := o]> (objects w) -> 0 <= k_count o <= k_max o ->
  counts_bounded w -> counts_bounded w'.
Proof.
  intros Ho Hin Hb id' o'. rewrite Ho.
  destruct (decide (id = id')) as [<-|Hne].
  - rewrite lookup_insert_eq. by intros [= <-].
  - rewrite lookup_insert_ne by done. apply Hb.
Qed.

Lemma counts_bounded_delete w w' id :
  objects w' = delete id (objects w) -> counts_bounded w -> counts_bounded w'.
Proof.
  intros Ho Hb id' o'. rewrite Ho.
  destruct (decide (id = id')) as [<-|Hne].
  - by rewrite lookup_delete_eq.
  - rewrite lookup_delete_ne by done. apply Hb.
Qed.

Lemma named_object_lookup n w id o :
  named_object n w = Some (id, o) -> objects w !! id = Some o.
Proof.
  unfold named_object. destruct (names w !! n) as [i|]; [|done].
  destruct (objects w !! i) eqn:E; [|done]. by intros [= <- <-].
Qed.

Lemma OpenSemaphoreA_bounded access inherit n w h wo :
  OpenSemaphoreA access inherit n w = Ret h wo ->
  counts_bounded w -> counts_bounded wo.
Proof.
  rewrite OpenSemaphoreA_cases.
  destruct (open_refused (env w) !! n); [intros [= _ <-]; by apply counts_bounded_same|].
  destruct (named_object n w) as [[id o]|] eqn:Hobj;
    [|intros [= _ <-]; by apply counts_bounded_same].
  intros [= _ <-] Hb.
  eapply (counts_bounded_insert w); [reflexivity| |done]; cbn.
  apply (Hb id o). by apply (named_object_lookup n).
Qed.

Lemma CreateSemaphoreA_bounded init max lpName w h wk :
  CreateSemaphoreA NULL init max lpName w = Ret h wk ->
  counts_bounded w -> counts_bounded wk.
Proof.
  unfold CreateSemaphoreA.
  destruct (kernel_exhausted (env w)); [intros [= _ <-]; by apply counts_bounded_same|].
  destruct ((init <? 0) || (max <=? 0) || (max <? init)) eqn:Hpar;
    [intros [= _ <-]; by apply counts_bounded_same|].
  assert (Hinit : 0 <= init <= max).
  { apply orb_false_elim in Hpar as [Hpar H3]. apply orb_false_elim in Hpar as [H1 H2].
    apply Z.ltb_ge in H1, H3. lia. }
  assert (Hnew : forall ns,
    counts_bounded w ->
    counts_bounded
      (with_kernel
         (<[fresh_key (handles w)
            := Handle (fresh_key (objects w)) SEMAPHORE_ALL_ACCESS]> (handles w))
         (<[fresh_key (objects w) := Ksem init max lpName 1]> (objects w)) ns w)).
  { intros ns Hb. eapply (counts_bounded_insert w); [reflexivity| |done]. exact Hinit. }
  destruct lpName as [n|]; [|intros [= _ <-]; apply Hnew].
  destruct (open_refused (env w) !! n); [intros [= _ <-]; by apply counts_bounded_same|].
  destruct (named_object n w) as [[id o]|] eqn:Hobj; [|intros [= _ <-]; apply Hnew].
  intros [= _ <-] Hb.
  eapply (counts_bounded_insert w); [reflexivity| |done]; cbn.
  apply (Hb id o). by apply (named_object_lookup n).
Qed.

Lemma CloseHandle_bounded h w r wc :
  CloseHandle h w = Ret r wc -> counts_bounded w -> counts_bounded wc.
Proof.
  unfold CloseHandle.
  destruct (handles w !! h) as [[id access]|];
    [|intros [= _ <-]; by apply counts_bounded_same].
  destruct (objects w !! id) as [o|] eqn:Ho;
    [|intros [= _ <-]; by apply counts_bounded_same].
  destruct (k_refs o) as [|[|n]]; intros [= _ <-] Hb.
  - eapply (counts_bounded_delete w); [reflexivity|done].
  - eapply (counts_bounded_delete w); [reflexivity|done].
  - eapply (counts_bounded_insert w); [reflexivity| |done]; cbn. by apply (Hb id o).
Qed.

Lemma ReleaseSemaphore_bounded h n p w r wr :
  ReleaseSemaphore h n p w = Ret r wr -> counts_bounded w -> counts_bounded wr.
Proof.
  unfold ReleaseSemaphore.
  destruct (handles w !! h) as [[id access]|];
    [|intros [= _ <-]; by apply counts_bounded_same].
  destruct (Z.land access _ =? 0); [intros [= _ <-]; by apply counts_bounded_same|].
  destruct (objects w !! id) as [o|] eqn:Ho;
    [|intros [= _ <-]; by apply counts_bounded_same].
  destruct ((n <=? 0) || (k_max o - k_count o <? n)) eqn:Hroom;
    [intros [= _ <-]; by apply counts_bounded_same|].
  apply orb_false_elim in Hroom as [H1 H2]. apply Z.leb_gt in H1. apply Z.ltb_ge in H2.
  intros [= _ <-] Hb. eapply (counts_bounded_insert w); [reflexivity| |done]; cbn.
  specialize (Hb id o Ho). cbn. lia.
Qed.

Lemma WaitForSingleObject_bounded h ms w r ww :
  WaitForSingleObject h ms w = Ret r ww -> counts_bounded w -> counts_bounded ww.
Proof.
  unfold WaitForSingleObject.
  destruct (handles w !! h) as [[id access]|];
    [|intros [= _ <-]; by apply counts_bounded_same].
  destruct (Z.land access _ =? 0); [intros [= _ <-]; by apply counts_bounded_same|].
  destruct (objects w !! id) as [o|] eqn:Ho;
    [|intros [= _ <-]; by apply counts_bounded_same].
  destruct (0 <? k_count o) eqn:Hpos.
  - apply Z.ltb_lt in Hpos. intros [= _ <-] Hb.
    eapply (counts_bounded_insert w); [reflexivity| |done]; cbn.
    specialize (Hb id o Ho). lia.
  - destruct (ms =? INFINITE); [done|]. intros [= _ <-]. by apply counts_bounded_same.
Qed.

(** X6. Every function of [sem.c] keeps the counts within their bounds:
    if every semaphore object has a count between 0 and its maximum before
    a call, the same holds in the state the call returns. *)
Theorem counts_stay_bounded w :
  counts_bounded w ->
  (forall sem pshared value r w',
      sem_init sem pshared value w = Ret r w' -> counts_bounded w') /\
  (forall name oflag mode value r w',
      sem_open name oflag mode value w = Ret r w' -> counts_bounded w') /\
  (forall sem r w', sem_post sem w = Ret r w' -> counts_bounded w') /\
  (forall sem r w', sem_wait sem w = Ret r w' -> counts_bounded w') /\
  (forall sem r w', sem_trywait sem w = Ret r w' -> counts_bounded w') /\
  (forall sem abs_timeout r w',
      sem_timedwait sem abs_timeout w = Ret r w' -> counts_bounded w') /\
  (forall sem r w', sem_destroy sem w = Ret r w' -> counts_bounded w') /\
  (forall sem r w', sem_close sem w = Ret r w' -> counts_bounded w') /\
  (forall name r w', sem_unlink name w = Ret r w' -> counts_bounded w').
Proof.
  intros Hb.
  assert (Herr : forall e w0 r w', counts_bounded w0 -> set_errno e w0 = Ret r w' ->
                                   counts_bounded w').
  { intros e w0 r w' Hb0 [= _ <-]. by apply (counts_bounded_same w0). }
  assert (Hdestroy : forall sem r w', sem_destroy sem w = Ret r w' -> counts_bounded w').
  { intros sem r w'. unfold sem_destroy.
    destruct (sem =? NULL); [by apply Herr|].
    unfold bind, load. destruct (mem w !! sem) as [c|]; [|done].
    destruct (CloseHandle (c_val c) w) as [cl wc| |] eqn:Hclose; [|done|done].
    pose proof (CloseHandle_bounded _ _ _ _ Hclose Hb) as Hbc.
    destruct (cl =? 0); [by apply Herr|].
    unfold free. destruct (sem =? NULL).
    - unfold store. destruct (mem wc !! sem); [|done].
      intros [= _ <-]. by apply (counts_bounded_same wc).
    - destruct (mem wc !! sem) as [[[] v]|]; [|done|done].
      unfold store. cbn. destruct (delete sem (mem wc) !! sem); [|done].
      intros [= _ <-]. by apply (counts_bounded_same wc). }
  repeat apply conj.
  - intros sem pshared value r w'. rewrite sem_init_cases.
    destruct (_ || _); [by intros [= _ <-]; apply (counts_bounded_same w)|].
    destruct (negb _); [by intros [= _ <-]; apply (counts_bounded_same w)|].
    destruct (heap_exhausted _); [by intros [= _ <-]; apply (counts_bounded_same w)|].
    cbn zeta.
    destruct (CreateSemaphoreA _ _ _ _ w) as [h wk| |] eqn:Hk; [|done|done].
    pose proof (CreateSemaphoreA_bounded _ _ _ _ _ _ Hk Hb) as Hbk.
    destruct (h =? NULL); [by intros [= _ <-]; apply (counts_bounded_same wk)|].
    destruct (_ !! sem); [|done].
    by intros [= _ <-]; apply (counts_bounded_same wk).
  - intros name oflag mode value r w'. rewrite sem_open_cases. cbn zeta.
    destruct (_ || _ || _); [by intros [= _ <-]; apply (counts_bounded_same w)|].
    destruct (heap_exhausted _); [by intros [= _ <-]; apply (counts_bounded_same w)|].
    destruct (OpenSemaphoreA _ _ _ w) as [h wo| |] eqn:Ho; [|done|done].
    pose proof (OpenSemaphoreA_bounded _ _ _ _ _ _ Ho Hb) as Hbo.
    destruct (negb (h =? NULL)).
    + destruct (negb _ && negb _).
      * destruct (CloseHandle h wo) as [cl wc| |] eqn:Hclose; [|done|done].
        pose proof (CloseHandle_bounded _ _ _ _ Hclose Hbo).
        by intros [= _ <-]; apply (counts_bounded_same wc).
      * by intros [= _ <-]; apply (counts_bounded_same wo).
    + destruct (negb _ && negb _);
        [by intros [= _ <-]; apply (counts_bounded_same wo)|].
      destruct (Z.land oflag O_CREAT =? 0);
        [by intros [= _ <-]; apply (counts_bounded_same wo)|].
      destruct (CreateSemaphoreA _ _ _ _ wo) as [h' wk| |] eqn:Hk; [|done|done].
      pose proof (CreateSemaphoreA_bounded _ _ _ _ _ _ Hk Hbo) as Hbk.
      destruct (h' =? NULL); by intros [= _ <-]; apply (counts_bounded_same wk).
  - intros sem r w'. unfold sem_post.
    destruct (_ || _); [by apply Herr|].
    unfold bind, load. destruct (mem w !! sem) as [c|]; [|done].
    destruct (ReleaseSemaphore _ _ _ w) as [rel wr| |] eqn:Hrel; [|done|done].
    pose proof (ReleaseSemaphore_bounded _ _ _ _ _ _ Hrel Hb).
    destruct (rel =? 0); [by apply Herr|]. by intros [= _ <-].
  - intros sem r w'. unfold sem_wait.
    destruct (_ || _); [by apply Herr|].
    unfold bind, load. destruct (mem w !! sem) as [c|]; [|done].
    destruct (WaitForSingleObject _ _ w) as [rc ww| |] eqn:Hwait; [|done|done].
    pose proof (WaitForSingleObject_bounded _ _ _ _ _ Hwait Hb).
    destruct (negb _); [by apply Herr|]. by intros [= _ <-].
  - intros sem r w'. unfold sem_trywait.
    destruct (_ || _); [by apply Herr|].
    unfold bind, load. destruct (mem w !! sem) as [c|]; [|done].
    destruct (WaitForSingleObject _ _ w) as [rc ww| |] eqn:Hwait; [|done|done].
    pose proof (WaitForSingleObject_bounded _ _ _ _ _ Hwait Hb).
    destruct (rc =? WAIT_OBJECT_0); [by intros [= _ <-]|].
    destruct (rc =? WAIT_TIMEOUT); by apply Herr.
  - intros sem abs_timeout r w'. unfold sem_timedwait.
    destruct (_ || _); [by apply Herr|].
    unfold bind, load, arch_rel_time_in_ms. destruct (mem w !! sem) as [c|]; [|done].
    destruct (WaitForSingleObject _ _ w) as [rc ww| |] eqn:Hwait; [|done|done].
    pose proof (WaitForSingleObject_bounded _ _ _ _ _ Hwait Hb).
    destruct (rc =? WAIT_OBJECT_0); [by intros [= _ <-]|].
    destruct (rc =? WAIT_TIMEOUT); by apply Herr.
  - exact Hdestroy.
  - exact Hdestroy.
  - by intros name r w' [= _ <-].
Qed.


(** *** [sem_destroy] and [sem_close] *)

(** X7. [sem_destroy], and [sem_close] which is the same call, has no
    successful return: every return is -1 with EINVAL, with the memory, the
    handle table and the kernel objects as they were (a NULL argument, or a
    handle that [CloseHandle] turns down).  When [CloseHandle] accepts the
    handle, the block at [sem] is freed and the store [*sem = NULL] that
    follows goes to that block, which the program no longer owns. *)
Theorem sem_destroy_returns sem w :
  (forall r w', sem_destroy sem w = Ret r w' ->
     r = -1 /\ errno w' = Some EINVAL /\ mem w' = mem w /\
     handles w' = handles w /\ objects w' = objects w /\ names w' = names w) /\
  (forall c, sem <> NULL -> mem w !! sem = Some c ->
     is_Some (handles w !! c_val c) -> sem_destroy sem w = Undefined) /\
  sem_destroy NULL w = Ret (-1) (with_errno EINVAL w) /\
  sem_close sem w = sem_destroy sem w.
Proof.
  assert (Hfreed : forall wc,
    sem <> NULL ->
    match free sem wc with
    | Ret _ w1 =>
        match store sem NULL w1 with
        | Ret _ w2 => ret 0 w2
        | Blocked => Blocked
        | Undefined => Undefined
        end
    | Blocked => Blocked
    | Undefined => Undefined
    end = Undefined).
  { intros wc Hsem. unfold free. rewrite (proj2 (Z.eqb_neq sem NULL)) by done.
    destruct (mem wc !! sem) as [[[] v]|]; [|done|done].
    unfold store. cbn. by rewrite lookup_delete_eq. }
  repeat apply conj.
  - intros r w'. unfold sem_destroy.
    destruct (sem =? NULL) eqn:Hsem; [by intros [= <- <-]|].
    apply Z.eqb_neq in Hsem.
    unfold bind at 1. unfold load. destruct (mem w !! sem) as [c|]; [|done].
    unfold bind at 1. unfold CloseHandle.
    destruct (handles w !! c_val c) as [[id access]|].
    + destruct (objects w !! id) as [o|]; [destruct (k_refs o) as [|[|n]]|];
        cbn; unfold bind; by rewrite Hfreed.
    + cbn. by intros [= <- <-].
  - intros c Hsem Hc [[id access] Hh]. unfold sem_destroy.
    rewrite (proj2 (Z.eqb_neq sem NULL)) by done.
    unfold bind at 1. unfold load. rewrite Hc.
    unfold bind at 1. unfold CloseHandle. rewrite Hh.
    destruct (objects w !! id) as [o|]; [destruct (k_refs o) as [|[|n]]|];
      cbn; unfold bind; by rewrite Hfreed.
  - reflexivity.
  - reflexivity.
Qed.

(** *** Handles side by side *)

Lemma sem_count_extend pv n w w' :
  sem_count pv w = Some n ->
  (forall c, mem w !! pv = Some c -> mem w' !! pv = Some c) ->
  (forall h e, handles w !! h = Some e -> handles w' !! h = Some e) ->
  (forall id o, objects w !! id = Some o ->
                exists o', objects w' !! id = Some o' /\ k_count o' = k_count o) ->
  sem_count pv w' = Some n.
Proof.
  unfold sem_count. intros Hn Hm Hh Ho.
  destruct (mem w !! pv) as [c|] eqn:Ec; [|done]. rewrite (Hm c eq_refl).
  destruct (handles w !! c_val c) as [e|] eqn:Eh; [|done]. rewrite (Hh _ _ Eh).
  destruct (objects w !! h_object e) as [o|] eqn:Eo; [|done].
  destruct (Ho _ _ Eo) as (o' & -> & Hcount). by rewrite Hcount.
Qed.

(** A kernel call that hands out a handle keeps the handles there are and
    the count of every object. *)
Lemma OpenSemaphoreA_extends access inherit n w h wo :
  OpenSemaphoreA access inherit n w = Ret h wo ->
  mem wo = mem w /\
  (forall h' e, handles w !! h' = Some e -> handles wo !! h' = Some e) /\
  (forall id o, objects w !! id = Some o ->
                exists o', objects wo !! id = Some o' /\ k_count o' = k_count o).
Proof.
  rewrite OpenSemaphoreA_cases.
  destruct (open_refused (env w) !! n); [intros [= _ <-]; cbn; by eauto|].
  destruct (named_object n w) as [[id o]|] eqn:Hobj; [|intros [= _ <-]; cbn; by eauto].
  intros [= _ <-]. cbn. split; [done|]. split.
  - intros h' id' Hh. rewrite lookup_insert_ne; [done|].
    intros <-. by rewrite fresh_key_fresh in Hh.
  - intros id' o' Ho. destruct (decide (id = id')) as [<-|Hne].
    + rewrite lookup_insert_eq. eexists. split; [done|]. cbn.
      rewrite (named_object_lookup _ _ _ _ Hobj) in Ho. by injection Ho as ->.
    + rewrite lookup_insert_ne by done. by eauto.
Qed.

Lemma CreateSemaphoreA_extends init max lpName w h wk :
  CreateSemaphoreA NULL init max lpName w = Ret h wk ->
  mem wk = mem w /\
  (forall h' e, handles w !! h' = Some e -> handles wk !! h' = Some e) /\
  (forall id o, objects w !! id = Some o ->
                exists o', objects wk !! id = Some o' /\ k_count o' = k_count o).
Proof.
  unfold CreateSemaphoreA.
  destruct (kernel_exhausted (env w)); [intros [= _ <-]; cbn; by eauto|].
  destruct ((init <? 0) || (max <=? 0) || (max <? init));
    [intros [= _ <-]; cbn; by eauto|].
  assert (Hhandles : forall (en : hentry) h' e, handles w !! h' = Some e ->
                     <[fresh_key (handles w) := en]> (handles w) !! h' = Some e).
  { intros en h' e Hh. rewrite lookup_insert_ne; [done|].
    intros <-. by rewrite fresh_key_fresh in Hh. }
  assert (Hnew : forall ns wk',
    wk' = with_kernel
            (<[fresh_key (handles w)
               := Handle (fresh_key (objects w)) SEMAPHORE_ALL_ACCESS]> (handles w))
            (<[fresh_key (objects w) := Ksem init max lpName 1]> (objects w)) ns w ->
    mem wk' = mem w /\
    (forall h' e, handles w !! h' = Some e -> handles wk' !! h' = Some e) /\
    (forall id o, objects w !! id = Some o ->
                  exists o', objects wk' !! id = Some o' /\ k_count o' = k_count o)).
  { intros ns wk' ->. cbn. split; [done|]. split; [apply Hhandles|].
    intros id o Ho. rewrite lookup_insert_ne; [by eauto|].
    intros <-. by rewrite fresh_key_fresh in Ho. }
  destruct lpName as [n|]; [|intros [= _ <-]; by eapply Hnew].
  destruct (open_refused (env w) !! n); [intros [= _ <-]; cbn; by eauto|].
  destruct (named_object n w) as [[id o]|] eqn:Hobj; [|intros [= _ <-]; by eapply Hnew].
  intros [= _ <-]. cbn. split; [done|]. split; [apply Hhandles|].
  intros id' o' Ho. destruct (decide (id = id')) as [<-|Hne].
  - rewrite lookup_insert_eq. eexists. split; [done|]. cbn.
    rewrite (named_object_lookup _ _ _ _ Hobj) in Ho. by injection Ho as ->.
  - rewrite lookup_insert_ne by done. by eauto.
Qed.

(** X8. A new handle does not disturb the ones there are.  After a
    successful [sem_init] or [sem_open] every handle that had a count before
    has the same count, and the new handle is none of them. *)
Theorem new_handle_keeps_counts w :
  (forall sem pshared value w1,
      sem_init sem pshared value w = Ret 0 w1 ->
      forall pv' n, pv' <> sem -> sem_count pv' w = Some n ->
        sem_count pv' w1 = Some n /\ c_val <$> mem w1 !! sem <> Some pv') /\
  (forall name oflag mode value pv w1,
      sem_open name oflag mode value w = Ret pv w1 -> pv <> NULL ->
      forall pv' n, sem_count pv' w = Some n ->
        sem_count pv' w1 = Some n /\ pv <> pv').
Proof.
  assert (Hmapped : forall pv' n, sem_count pv' w = Some n -> pv' <> fresh_key (mem w)).
  { intros pv' n Hn ->. unfold sem_count in Hn. by rewrite fresh_key_fresh in Hn. }
  split.
  - intros sem pshared value w1. rewrite sem_init_cases.
    destruct (_ || _); [done|]. destruct (negb _); [done|].
    destruct (heap_exhausted _); [done|]. cbn zeta.
    destruct (CreateSemaphoreA _ _ _ _ w) as [h wk| |] eqn:Hk; [|done|done].
    destruct (CreateSemaphoreA_extends _ _ _ _ _ _ Hk) as (Hm & Hh & Ho).
    destruct (h =? NULL); [done|].
    destruct (_ !! sem) as [c|] eqn:Hc; [|done].
    intros [= <-] pv' n Hsem Hn. pose proof (Hmapped _ _ Hn) as Hpv. split.
    + apply (sem_count_extend _ _ w); try done. cbn. intros c' Hc'.
      by rewrite !lookup_insert_ne.
    + cbn. rewrite lookup_insert_eq. cbn. congruence.
  - intros name oflag mode value pv w1 Hopen Hnn pv' n Hn.
    pose proof (Hmapped _ _ Hn) as Hpv. revert Hopen.
    rewrite sem_open_cases. cbn zeta.
    destruct (_ || _ || _); [by intros [= <- _]|].
    destruct (heap_exhausted _); [by intros [= <- _]|].
    destruct (OpenSemaphoreA _ _ _ w) as [h wo| |] eqn:Ho; [|done|done].
    destruct (OpenSemaphoreA_extends _ _ _ _ _ _ Ho) as (Hm & Hh & Hobj).
    assert (Hdone : forall hk wk,
      mem wk = mem w ->
      (forall h' e, handles w !! h' = Some e -> handles wk !! h' = Some e) ->
      (forall id o, objects w !! id = Some o ->
                    exists o', objects wk !! id = Some o' /\ k_count o' = k_count o) ->
      Ret (fresh_key (mem w))
        (with_mem (<[fresh_key (mem w) := Cell true hk]> (mem w)) wk) = Ret pv w1 ->
      sem_count pv' w1 = Some n /\ pv <> pv').
    { intros hk wk Hmk Hhk Hok [= <- <-]. split; [|done].
      apply (sem_count_extend _ _ w); try done. cbn. intros c' Hc'.
      by rewrite lookup_insert_ne. }
    destruct (negb (h =? NULL)).
    + destruct (negb _ && negb _).
      * destruct (CloseHandle h wo); [|done|done]. by intros [= <- _].
      * by apply Hdone.
    + cbn zeta. destruct (negb _ && negb _); [by intros [= <- _]|].
      destruct (Z.land oflag O_CREAT =? 0); [by intros [= <- _]|].
      destruct (CreateSemaphoreA _ _ _ _ wo) as [h' wk| |] eqn:Hk; [|done|done].
      destruct (CreateSemaphoreA_extends _ _ _ _ _ _ Hk) as (Hmk & Hhk & Hok).
      destruct (h' =? NULL); [by intros [= <- _]|].
      apply Hdone.
      * congruence.
      * intros h0 id0 H0. apply Hhk, Hh, H0.
      * intros id0 o0 H0. destruct (Hobj _ _ H0) as (o1 & H1 & Hc1).
        destruct (Hok _ _ H1) as (o2 & H2 & Hc2). exists o2. split; [done|]. congruence.
Qed.


(** *** Named semaphores *)

(** [sem_open] with O_CREAT under a name that is free. *)
Lemma sem_open_creates name oflag mode value w :
  0 <= value <= SEM_VALUE_MAX ->
  1 <= Z.of_nat (strlen name) <= 504 ->
  heap_exhausted (env w) = false ->
  kernel_exhausted (env w) = false ->
  open_refused (env w) !! global_name name = None ->
  named_object (global_name name) w = None ->
  Z.land oflag O_CREAT <> 0 ->
  sem_open name oflag mode value w =
  Ret (fresh_key (mem w))
    (with_mem (<[fresh_key (mem w) := Cell true (fresh_key (handles w))]> (mem w))
       (with_kernel
          (<[fresh_key (handles w)
             := Handle (fresh_key (objects w)) SEMAPHORE_ALL_ACCESS]> (handles w))
          (<[fresh_key (objects w)
             := Ksem value SEM_VALUE_MAX (Some (global_name name)) 1]> (objects w))
          (<[global_name name := fresh_key (objects w)]> (names w))
          (with_last_error ERROR_FILE_NOT_FOUND w))).
Proof.
  intros Hval Hlen Hheap Hker Href Hfree Hcreat.
  rewrite sem_open_valid, OpenSemaphoreA_cases, Href, Hfree by (done || lia).
  cbn. rewrite (proj2 (Z.eqb_neq _ 0) Hcreat).
  rewrite to_int_small by (unfold INT_MAX in *; lia).
  rewrite CreateSemaphoreA_new by (done || lia).
  by rewrite fresh_key_not_null.
Qed.

(** A handle with the right to post and without the right to wait, as
    [sem_open] gets from [OpenSemaphoreA]. *)
Lemma sem_count_handle_on pv w id o access :
  handle_on pv w id o access -> sem_count pv w = Some (k_count o).
Proof.
  intros (Hpv & c & Hc & Hh & Ho). unfold sem_count.
  rewrite Hc, Hh. cbn. by rewrite Ho.
Qed.

Lemma handle_on_set_count pv w id o access n :
  handle_on pv w id o access ->
  handle_on pv (set_count id n w) id (Ksem n (k_max o) (k_name o) (k_refs o)) access.
Proof.
  intros (Hpv & c & Hc & Hh & Ho). unfold set_count. rewrite Ho.
  split; [done|]. exists c. cbn. by rewrite lookup_insert_eq.
Qed.

Lemma sem_post_modify_state pv w id o access :
  handle_on pv w id o access -> Z.land access SEMAPHORE_MODIFY_STATE <> 0 ->
  k_count o < k_max o ->
  sem_post pv w = Ret 0 (set_count id (k_count o + 1) w).
Proof.
  intros (Hpv & c & Hc & Hh & Ho) Hpost Hroom. unfold sem_post.
  rewrite (proj2 (Z.eqb_neq pv NULL)) by done. cbn [orb].
  unfold bind, load, ReleaseSemaphore.
  rewrite Hc, Hh, (proj2 (Z.eqb_neq _ 0) Hpost), Ho. zbool. cbn.
  unfold set_count. by rewrite Ho.
Qed.

Lemma waits_without_synchronize pv w id o access abs_timeout :
  handle_on pv w id o access -> Z.land access SYNCHRONIZE = 0 ->
  let denied := Ret (-1) (with_errno EPERM (with_last_error ERROR_ACCESS_DENIED w)) in
  sem_trywait pv w = denied /\ sem_wait pv w = denied /\
  sem_timedwait pv abs_timeout w = denied.
Proof.
  intros (Hpv & c & Hc & Hh & Ho) Hwait denied.
  unfold sem_trywait, sem_wait, sem_timedwait.
  rewrite (proj2 (Z.eqb_neq pv NULL)) by done. cbn [orb].
  unfold bind, load, arch_rel_time_in_ms, WaitForSingleObject.
  by rewrite Hc, Hh, Hwait.
Qed.

(** X9. Two handles on one name share one count, and differ in what they
    allow.  When a semaphore is created under a free name and then opened
    again, the two calls return different handles that show the same count,
    the one the semaphore was created with.  A post through either is seen
    through the other, and a [sem_trywait] through the first is seen through
    the second.  The second handle was opened with SEMAPHORE_MODIFY_STATE
    alone, so every wait through it fails with EPERM and takes nothing. *)
Theorem named_handles_share name oflag1 oflag2 mode1 mode2 value value2 abs_timeout w :
  0 <= value <= SEM_VALUE_MAX ->
  value2 <= SEM_VALUE_MAX ->
  1 <= Z.of_nat (strlen name) <= 504 ->
  heap_exhausted (env w) = false ->
  kernel_exhausted (env w) = false ->
  open_refused (env w) !! global_name name = None ->
  named_object (global_name name) w = None ->
  Z.land oflag1 O_CREAT <> 0 ->
  Z.land oflag2 O_CREAT = 0 \/ Z.land oflag2 O_EXCL = 0 ->
  exists pv1 w1 pv2 w2,
    sem_open name oflag1 mode1 value w = Ret pv1 w1 /\
    sem_open name oflag2 mode2 value2 w1 = Ret pv2 w2 /\
    pv1 <> NULL /\ pv2 <> NULL /\ pv1 <> pv2 /\
    sem_count pv1 w2 = Some value /\ sem_count pv2 w2 = Some value /\
    (value < SEM_VALUE_MAX ->
     exists w3, sem_post pv1 w2 = Ret 0 w3 /\ sem_count pv2 w3 = Some (value + 1)) /\
    (value < SEM_VALUE_MAX ->
     exists w3, sem_post pv2 w2 = Ret 0 w3 /\ sem_count pv1 w3 = Some (value + 1)) /\
    (0 < value ->
     exists w3, sem_trywait pv1 w2 = Ret 0 w3 /\ sem_count pv2 w3 = Some (value - 1)) /\
    (let denied :=
       Ret (-1) (with_errno EPERM (with_last_error ERROR_ACCESS_DENIED w2)) in
     sem_trywait pv2 w2 = denied /\ sem_wait pv2 w2 = denied /\
     sem_timedwait pv2 abs_timeout w2 = denied).
Proof.
  intros Hval Hval2 Hlen Hheap Hker Href Hfree Hcreat Hflags.
  set (g := global_name name) in *.
  set (pv1 := fresh_key (mem w)). set (h1 := fresh_key (handles w)).
  set (id := fresh_key (objects w)).
  set (w1 := with_mem (<[pv1 := Cell true h1]> (mem w))
               (with_kernel (<[h1 := Handle id SEMAPHORE_ALL_ACCESS]> (handles w))
                  (<[id := Ksem value SEM_VALUE_MAX (Some g) 1]> (objects w))
                  (<[g := id]> (names w))
                  (with_last_error ERROR_FILE_NOT_FOUND w))).
  set (pv2 := fresh_key (mem w1)). set (h2 := fresh_key (handles w1)).
  set (o2 := Ksem value SEM_VALUE_MAX (Some g) 2).
  set (w2 := with_mem (<[pv2 := Cell true h2]> (mem w1))
               (with_kernel (<[h2 := Handle id SEMAPHORE_MODIFY_STATE]> (handles w1))
                  (<[id := o2]> (objects w1)) (names w1) w1)).
  assert (Hopen1 : sem_open name oflag1 mode1 value w = Ret pv1 w1)
    by (by apply sem_open_creates).
  assert (Hobj1 : named_object g w1 = Some (id, Ksem value SEM_VALUE_MAX (Some g) 1)).
  { unfold named_object, w1. cbn. by rewrite !lookup_insert_eq. }
  assert (Hopen2 : sem_open name oflag2 mode2 value2 w1 = Ret pv2 w2).
  { by rewrite (sem_open_found name oflag2 mode2 value2 w1 id _ Hval2 Hlen Hheap Href
                  Hobj1 Hflags). }
  assert (Hne : pv1 <> pv2).
  { intros Heq. pose proof (fresh_key_fresh (mem w1)) as Hf. fold pv2 in Hf.
    rewrite <- Heq in Hf. unfold w1 in Hf. cbn in Hf. by rewrite lookup_insert_eq in Hf. }
  assert (Hhne : h1 <> h2).
  { intros Heq. pose proof (fresh_key_fresh (handles w1)) as Hf. fold h2 in Hf.
    rewrite <- Heq in Hf. unfold w1 in Hf. cbn in Hf. by rewrite lookup_insert_eq in Hf. }
  assert (Hw1 : wraps pv1 w2 id o2).
  { apply (wraps_all_access _ _ (Cell true h1)); [apply fresh_key_nonzero|..];
      unfold w2, w1; cbn.
    - by rewrite lookup_insert_ne, lookup_insert_eq.
    - by rewrite lookup_insert_ne, lookup_insert_eq.
    - by rewrite lookup_insert_eq. }
  assert (Hw2 : handle_on pv2 w2 id o2 SEMAPHORE_MODIFY_STATE).
  { split; [apply fresh_key_nonzero|].
    exists (Cell true h2). unfold w2. cbn. by rewrite !lookup_insert_eq. }
  assert (Hw1' : handle_on pv1 w2 id o2 SEMAPHORE_ALL_ACCESS).
  { split; [apply fresh_key_nonzero|].
    exists (Cell true h1). unfold w2, w1. cbn.
    rewrite lookup_insert_ne, lookup_insert_eq by done. cbn.
    by rewrite lookup_insert_ne, !lookup_insert_eq. }
  exists pv1, w1, pv2, w2.
  split; [done|]. split; [done|].
  split; [apply fresh_key_nonzero|]. split; [apply fresh_key_nonzero|].
  split; [done|].
  split; [by rewrite (sem_count_wraps _ _ _ _ Hw1)|].
  split; [by rewrite (sem_count_handle_on _ _ _ _ _ Hw2)|].
  split; [|split; [|split]].
  - intros Hroom. eexists. split; [by apply (sem_post_count _ _ id o2)|].
    by rewrite (sem_count_handle_on _ _ _ _ _ (handle_on_set_count _ _ _ _ _ _ Hw2)).
  - intros Hroom. eexists.
    split; [by apply (sem_post_modify_state _ _ id o2 SEMAPHORE_MODIFY_STATE)|].
    by rewrite (sem_count_handle_on _ _ _ _ _ (handle_on_set_count _ _ _ _ _ _ Hw1')).
  - intros Hpos. eexists. split; [by apply (sem_trywait_count _ _ id o2)|].
    by rewrite (sem_count_handle_on _ _ _ _ _ (handle_on_set_count _ _ _ _ _ _ Hw2)).
  - by apply (waits_without_synchronize pv2 w2 id o2 SEMAPHORE_MODIFY_STATE).
Qed.

(** X10. Without O_CREAT [sem_open] creates nothing: whatever it returns,
    the namespace is as before and every semaphore object is there as
    before, with its count, its maximum and its name; and when no semaphore
    is open under the name, the call fails with ENOENT. *)
Theorem sem_open_without_create name oflag mode value w :
  Z.land oflag O_CREAT = 0 ->
  (forall pv w', sem_open name oflag mode value w = Ret pv w' ->
     names w' = names w /\
     forall id,
       (fun o => (k_count o, k_max o, k_name o)) <$> objects w' !! id
       = (fun o => (k_count o, k_max o, k_name o)) <$> objects w !! id) /\
  (value <= SEM_VALUE_MAX -> 1 <= Z.of_nat (strlen name) <= 504 ->
   heap_exhausted (env w) = false ->
   open_refused (env w) !! global_name name = None ->
   named_object (global_name name) w = None ->
   sem_open name oflag mode value w
   = Ret NULL (with_errno ENOENT (with_last_error ERROR_FILE_NOT_FOUND w))).
Proof.
  intros Hcreat. split.
  - intros pv w'. rewrite sem_open_cases. cbn zeta. rewrite Hcreat.
    change (0 =? 0) with true. cbn [negb andb].
    destruct (_ || _ || _); [by intros [= _ <-]|].
    destruct (heap_exhausted _); [by intros [= _ <-]|].
    rewrite OpenSemaphoreA_cases.
    destruct (open_refused (env w) !! _) as [rc|].
    { change (negb (NULL =? NULL)) with false. cbn iota.
      destruct (negb _ && negb _); by intros [= _ <-]. }
    destruct (named_object _ w) as [[id o]|] eqn:Hobj.
    + rewrite fresh_key_not_null. cbn [negb]. intros [= _ <-]. cbn.
      split; [done|]. intros id'.
      destruct (decide (id = id')) as [<-|Hne].
      * rewrite lookup_insert_eq, (named_object_lookup _ _ _ _ Hobj). done.
      * by rewrite lookup_insert_ne.
    + change (negb (NULL =? NULL)) with false. cbn iota.
      destruct (negb _ && negb _); by intros [= _ <-].
  - intros Hval Hlen Hheap Href Hfree.
    rewrite sem_open_valid, OpenSemaphoreA_cases, Href, Hfree by done.
    cbn. by rewrite Hcreat.
Qed.

(** *** Failures before the kernel is asked, and success *)

(** X11. The order in which [sem_init] turns a call down, and what is
    left of each refusal.  A NULL [sem] gives EINVAL whatever the other
    arguments are; then a [pshared] other than PTHREAD_PROCESS_PRIVATE gives
    EPERM; then a failed allocation gives ENOMEM.  In all three the state
    differs in [errno] only: the kernel is not asked.  [sem_open], once its
    arguments are accepted, gives ENOMEM in the same way. *)
Theorem early_failures w :
  (forall pshared value,
      sem_init NULL pshared value w = Ret (-1) (with_errno EINVAL w)) /\
  (forall sem pshared value,
      sem <> NULL -> value <= SEM_VALUE_MAX -> pshared <> PTHREAD_PROCESS_PRIVATE ->
      sem_init sem pshared value w = Ret (-1) (with_errno EPERM w)) /\
  (forall sem value,
      sem <> NULL -> value <= SEM_VALUE_MAX -> heap_exhausted (env w) = true ->
      sem_init sem PTHREAD_PROCESS_PRIVATE value w = Ret (-1) (with_errno ENOMEM w)) /\
  (forall name oflag mode value,
      value <= SEM_VALUE_MAX -> 1 <= Z.of_nat (strlen name) <= 504 ->
      heap_exhausted (env w) = true ->
      sem_open name oflag mode value w = Ret NULL (with_errno ENOMEM w)).
Proof.
  repeat apply conj.
  - intros pshared value. by rewrite sem_init_cases.
  - intros sem pshared value Hsem Hval Hsh. rewrite sem_init_cases. by zbool.
  - intros sem value Hsem Hval Hheap. rewrite sem_init_cases, Hheap. by zbool.
  - intros name oflag mode value Hval Hlen Hheap. rewrite sem_open_cases. cbn zeta.
    destruct (name_guard_passes name Hlen) as [-> Hguard].
    rewrite (proj2 (Z.ltb_ge SEM_VALUE_MAX value)) by lia.
    cbn [orb]. by rewrite Hguard, Hheap.
Qed.

(** X12. When [sem_init] succeeds.  For a cell the caller owns and an
    unsigned [value], [sem_init] returns 0 exactly when [sem] is not NULL,
    [value] is at most SEM_VALUE_MAX, [pshared] is PTHREAD_PROCESS_PRIVATE,
    and neither the heap nor the kernel is exhausted; in every other case it
    returns -1. *)
Theorem sem_init_succeeds_iff sem pshared value w c :
  mem w !! sem = Some c -> 0 <= value ->
  ((exists w1, sem_init sem pshared value w = Ret 0 w1) <->
   sem <> NULL /\ value <= SEM_VALUE_MAX /\ pshared = PTHREAD_PROCESS_PRIVATE /\
   heap_exhausted (env w) = false /\ kernel_exhausted (env w) = false) /\
  (exists r w1, sem_init sem pshared value w = Ret r w1 /\ (r = 0 \/ r = -1)).
Proof.
  intros Hc Hpos.
  assert (Hne : sem <> fresh_key (mem w)).
  { intros ->. by rewrite fresh_key_fresh in Hc. }
  rewrite sem_init_cases, CreateSemaphoreA_unnamed.
  destruct (sem =? NULL) eqn:Hsem; cbn [orb].
  { apply Z.eqb_eq in Hsem. split; [|by eauto].
    split; [by intros [w1 [=]]|]. by intros (H & _). }
  apply Z.eqb_neq in Hsem.
  destruct (SEM_VALUE_MAX <? value) eqn:Hval.
  { apply Z.ltb_lt in Hval. split; [|by eauto].
    split; [by intros [w1 [=]]|]. intros (_ & H & _). lia. }
  apply Z.ltb_ge in Hval.
  destruct (pshared =? PTHREAD_PROCESS_PRIVATE) eqn:Hsh; cbn [negb].
  2:{ apply Z.eqb_neq in Hsh. split; [|by eauto].
      split; [by intros [w1 [=]]|]. by intros (_ & _ & H & _). }
  apply Z.eqb_eq in Hsh.
  destruct (heap_exhausted (env w)).
  { split; [|by eauto]. split; [by intros [w1 [=]]|]. by intros (_ & _ & _ & H & _). }
  destruct (kernel_exhausted (env w)).
  { cbn. split; [|by eauto]. split; [by intros [w1 [=]]|]. by intros (_ & _ & _ & _ & H). }
  rewrite to_int_small by (unfold INT_MAX in *; lia). zbool.
  cbn. rewrite fresh_key_not_null, lookup_insert_ne, Hc by done.
  split; [|by eauto]. split; [done|]. by eauto.
Qed.


(** *** The name the kernel sees *)

Lemma string_of_list_ascii_inj (l1 l2 : list ascii) :
  string_of_list_ascii l1 = string_of_list_ascii l2 -> l1 = l2.
Proof.
  intros H. rewrite <- (list_ascii_of_string_of_list_ascii l1),
                    <- (list_ascii_of_string_of_list_ascii l2). by rewrite H.
Qed.

Lemma length_string_of_list_ascii (l : list ascii) :
  String.length (string_of_list_ascii l) = length l.
Proof. induction l as [|c l IH]; cbn; [done|]. by rewrite IH. Qed.

(** Two names get the same kernel name exactly when their characters
    before the first NUL are the same. *)
Lemma global_name_eq_iff a b :
  global_name a = global_name b <->
  take (strlen a) (list_ascii_of_string a) = take (strlen b) (list_ascii_of_string b).
Proof.
  unfold global_name, qualified. rewrite !Nat2Z.id. split.
  - intros H. cbn in H. apply string_of_list_ascii_inj. by injection H.
  - by intros ->.
Qed.

Lemma global_name_length a : String.length (global_name a) = (7 + strlen a)%nat.
Proof.
  unfold global_name, qualified. rewrite !Nat2Z.id.
  set (s := string_of_list_ascii _).
  change (S (S (S (S (S (S (S (String.length s))))))) = (7 + strlen a)%nat).
  unfold s. rewrite length_string_of_list_ascii, length_take.
  pose proof (strlen_le a). lia.
Qed.

(** X13. The name the kernel sees.  For a name of 1 to 504 characters the
    three writes of [sem_open] into its buffer succeed, and the buffer then
    holds, as a C string, the prefix followed by the characters of the name
    before its first NUL, 7 characters more than the name.  [sem_open] tells
    semaphores apart by those characters and by nothing else: on two names
    that agree in them it does the same thing in every state and with every
    argument, and a semaphore created under one name is not found under a
    name that differs in them. *)
Theorem kernel_name_of_name a b :
  1 <= Z.of_nat (strlen a) <= 504 ->
  1 <= Z.of_nat (strlen b) <= 504 ->
  (exists buffer,
     fill_buffer a (to_int (Z.of_nat (strlen a))) = Some buffer /\
     c_string buffer = Some (global_name a) /\
     String.length (global_name a) = (7 + strlen a)%nat) /\
  (take (strlen a) (list_ascii_of_string a) = take (strlen b) (list_ascii_of_string b) ->
   forall oflag mode value w,
     sem_open a oflag mode value w = sem_open b oflag mode value w) /\
  (take (strlen a) (list_ascii_of_string a) <> take (strlen b) (list_ascii_of_string b) ->
   forall oflag oflag' mode mode' value value' w,
     0 <= value <= SEM_VALUE_MAX -> value' <= SEM_VALUE_MAX ->
     heap_exhausted (env w) = false -> kernel_exhausted (env w) = false ->
     open_refused (env w) !! global_name a = None ->
     open_refused (env w) !! global_name b = None ->
     named_object (global_name a) w = None ->
     names w !! global_name b = None ->
     Z.land oflag O_CREAT <> 0 -> Z.land oflag' O_CREAT = 0 ->
     exists pv w1,
       sem_open a oflag mode value w = Ret pv w1 /\ pv <> NULL /\
       sem_open b oflag' mode' value' w1
       = Ret NULL (with_errno ENOENT (with_last_error ERROR_FILE_NOT_FOUND w1))).
Proof.
  intros Hlena Hlenb.
  destruct (name_guard_passes a Hlena) as [Hinta Hguarda].
  destruct (name_guard_passes b Hlenb) as [Hintb Hguardb].
  split; [|split].
  - rewrite Hinta.
    destruct (fill_buffer_ok a (Z.of_nat (strlen a))) as (buffer & Hfill & _ & Hread);
      [lia|lia|].
    exists buffer. split; [done|]. split; [exact Hread|apply global_name_length].
  - intros Hsame oflag mode value w.
    apply global_name_eq_iff in Hsame.
    rewrite !sem_open_cases. cbn zeta. rewrite Hinta, Hintb.
    destruct (SEM_VALUE_MAX <? value); cbn [orb]; [done|].
    rewrite Hguarda, Hguardb.
    fold (global_name a). fold (global_name b). by rewrite Hsame.
  - intros Hdiff oflag oflag' mode mode' value value' w
           Hval Hval' Hheap Hker Hrefa Hrefb Hfree Hnames Hcreat Hcreat'.
    assert (Hne : global_name a <> global_name b).
    { intros Heq. by apply Hdiff, global_name_eq_iff. }
    eexists _, _. split; [by apply sem_open_creates|].
    split; [apply fresh_key_nonzero|].
    rewrite sem_open_valid, OpenSemaphoreA_cases by done. cbn.
    rewrite Hrefb. unfold named_object. cbn.
    rewrite lookup_insert_ne, Hnames by done. cbn.
    by rewrite Hcreat'.
Qed.


End Sem.

(** ** The properties on the example states *)

Lemma example_sem_value_max : 0 < Example.SEM_VALUE_MAX <= INT_MAX.
Proof. unfold Example.SEM_VALUE_MAX, INT_MAX. lia. Qed.

Lemma sem_init_value_too_large_example :
  Example.SEM_VALUE_MAX < 2147483648 /\
  sem_init Example.SEM_VALUE_MAX Example.PTHREAD_PROCESS_PRIVATE 100 0 2147483648
    Example.w_empty
  = Ret (-1) (with_errno EINVAL Example.w_empty).
Proof.
  split; [unfold Example.SEM_VALUE_MAX; lia|].
  apply sem_init_value_too_large;
    [unfold Example.SEM_VALUE_MAX, INT_MAX; lia | unfold Example.SEM_VALUE_MAX; lia].
Defined.

Lemma init_then_trywait_same_pointer_example :
  exists w1,
    sem_init Example.SEM_VALUE_MAX Example.PTHREAD_PROCESS_PRIVATE 100
      Example.PTHREAD_PROCESS_PRIVATE 3 Example.w_empty = Ret 0 w1 /\
    handles w1 !! fresh_key (mem Example.w_empty) = None /\
    c_val <$> mem w1 !! 100 = Some (fresh_key (mem Example.w_empty)) /\
    sem_count (fresh_key (mem Example.w_empty)) w1 = Some 3 /\
    sem_trywait 100 w1
    = Ret (-1) (with_errno EPERM (with_last_error ERROR_INVALID_HANDLE w1)) /\
    sem_count (fresh_key (mem Example.w_empty))
      (with_errno EPERM (with_last_error ERROR_INVALID_HANDLE w1)) = Some 3.
Proof.
  eexists. split; [vm_compute; reflexivity|].
  split; [vm_compute; reflexivity|].
  apply (init_then_trywait_same_pointer Example.SEM_VALUE_MAX
           Example.PTHREAD_PROCESS_PRIVATE)
    with (w := Example.w_empty) (c := Cell false 0).
  - unfold Example.SEM_VALUE_MAX, INT_MAX. lia.
  - unfold Example.SEM_VALUE_MAX. lia.
  - vm_compute. reflexivity.
  - vm_compute. reflexivity.
  - vm_compute. reflexivity.
Defined.

Lemma post_then_wait_same_pointer_example :
  exists w1,
    sem_init Example.SEM_VALUE_MAX Example.PTHREAD_PROCESS_PRIVATE 100
      Example.PTHREAD_PROCESS_PRIVATE 0 Example.w_empty = Ret 0 w1 /\
    handles w1 !! fresh_key (mem Example.w_empty) = None /\
    let w2 := with_errno EINVAL (with_last_error ERROR_INVALID_HANDLE w1) in
    let w3 := with_errno EPERM w2 in
    sem_count (fresh_key (mem Example.w_empty)) w1 = Some 0 /\
    sem_post 100 w1 = Ret (-1) w2 /\
    sem_wait 100 w2 = Ret (-1) w3 /\
    sem_trywait 100 w3 = Ret (-1) w3 /\
    errno w3 = Some EPERM /\ objects w3 = objects w1.
Proof.
  eexists. split; [vm_compute; reflexivity|].
  split; [vm_compute; reflexivity|].
  apply (post_then_wait_same_pointer Example.SEM_VALUE_MAX
           Example.PTHREAD_PROCESS_PRIVATE)
    with (w := Example.w_empty) (c := Cell false 0).
  - unfold Example.SEM_VALUE_MAX, INT_MAX. lia.
  - vm_compute. reflexivity.
  - vm_compute. reflexivity.
  - vm_compute. reflexivity.
Defined.

Lemma timedwait_past_deadline_example :
  deadline_ms (Timespec 0 999999999) <= now Example.w_zero /\
  sem_timedwait 101 (Timespec 0 999999999) Example.w_zero
  = sem_trywait 101 Example.w_zero /\
  sem_timedwait 101 (Timespec 0 999999999) Example.w_zero
  = Ret (-1) (with_errno ETIMEDOUT Example.w_zero).
Proof.
  assert (Hpast : deadline_ms (Timespec 0 999999999) <= now Example.w_zero).
  { vm_compute. discriminate. }
  destruct (timedwait_past_deadline 101 (Timespec 0 999999999) Example.w_zero Hpast)
    as (Heq & Hvalid & _).
  split; [exact Hpast|]. split; [exact Heq|].
  apply (Hvalid 1 (Ksem 0 2147483647 None 1)).
  - apply (wraps_all_access _ _ (Cell true 1)); [discriminate|vm_compute; reflexivity..].
  - simpl. lia.
Defined.

Lemma sem_open_existing_ignores_value_example :
  named_object (global_name "/s") Example.w_named
  = Some (1, Ksem 5 2147483647 (Some "Global\/s") 1) /\
  exists pv w',
    (forall value, value <= Example.SEM_VALUE_MAX ->
       sem_open Example.SEM_VALUE_MAX Example.O_CREAT Example.O_EXCL "/s" 0 0 value
         Example.w_named = Ret pv w') /\
    handle_on pv w' 1 (Ksem 5 2147483647 (Some "Global\/s") 2) SEMAPHORE_MODIFY_STATE /\
    sem_count pv w' = Some 5 /\
    errno w' = errno Example.w_named /\ names w' = names Example.w_named.
Proof.
  split; [vm_compute; reflexivity|].
  apply (sem_open_existing_ignores_value Example.SEM_VALUE_MAX Example.O_CREAT
           Example.O_EXCL example_sem_value_max "/s" 0 0 Example.w_named 1
           (Ksem 5 2147483647 (Some "Global\/s") 1)).
  - simpl. lia.
  - reflexivity.
  - vm_compute. reflexivity.
  - vm_compute. reflexivity.
  - left. reflexivity.
Defined.

Lemma sem_open_exclusive_existing_example :
  (exists w',
     sem_open Example.SEM_VALUE_MAX Example.O_CREAT Example.O_EXCL "/s" 1280 0 0
       Example.w_named = Ret NULL w' /\
     errno w' = Some EEXIST /\ handles w' = handles Example.w_named /\
     mem w' = mem Example.w_named) /\
  (exists pv w1,
     sem_open Example.SEM_VALUE_MAX Example.O_CREAT Example.O_EXCL "/s" 1280 0 0
       Example.w_empty = Ret pv w1 /\ pv <> NULL /\
     sem_open Example.SEM_VALUE_MAX Example.O_CREAT Example.O_EXCL "/s" 1280 0 0 w1
     = Ret NULL (with_errno EEXIST w1)).
Proof.
  destruct (sem_open_exclusive_existing Example.SEM_VALUE_MAX Example.O_CREAT
              Example.O_EXCL example_sem_value_max) as [Hfound Hsecond].
  split.
  - destruct (Hfound "/s" 1280 0 0 Example.w_named 1
                (Ksem 5 2147483647 (Some "Global\/s") 1))
      as (w' & Hopen & Herr & Hh & Hm & _).
    + unfold Example.SEM_VALUE_MAX. lia.
    + simpl. lia.
    + reflexivity.
    + vm_compute. reflexivity.
    + vm_compute. reflexivity.
    + vm_compute. discriminate.
    + vm_compute. discriminate.
    + exists w'. auto.
  - eexists _, _. split; [vm_compute; reflexivity|]. split; [discriminate|].
    eapply (Hsecond "/s" 1280 0 0 Example.w_empty).
    + simpl. lia.
    + vm_compute. reflexivity.
    + vm_compute. discriminate.
    + vm_compute. discriminate.
    + vm_compute. reflexivity.
    + discriminate.
Defined.

Lemma sem_open_native_open_fails_example :
  OpenSemaphoreA SEMAPHORE_MODIFY_STATE FALSE (global_name "/s") Example.w_empty
  = Ret NULL (with_last_error ERROR_FILE_NOT_FOUND Example.w_empty) /\
  sem_open Example.SEM_VALUE_MAX Example.O_CREAT Example.O_EXCL "/s" 0 0 2
    Example.w_empty
  = Ret NULL (with_errno ENOENT (with_last_error ERROR_FILE_NOT_FOUND Example.w_empty)) /\
  exists pv w',
    sem_open Example.SEM_VALUE_MAX Example.O_CREAT Example.O_EXCL "/s" 256 0 2
      Example.w_empty = Ret pv w' /\
    wraps pv w' (fresh_key (objects Example.w_empty))
      (Ksem 2 Example.SEM_VALUE_MAX (Some (global_name "/s")) 1) /\
    names w' !! global_name "/s" = Some (fresh_key (objects Example.w_empty)).
Proof.
  assert (Hopen : OpenSemaphoreA SEMAPHORE_MODIFY_STATE FALSE (global_name "/s")
                    Example.w_empty
                  = Ret NULL (with_last_error ERROR_FILE_NOT_FOUND Example.w_empty)).
  { vm_compute. reflexivity. }
  assert (Hval : 2 <= Example.SEM_VALUE_MAX) by (unfold Example.SEM_VALUE_MAX; lia).
  assert (Hlen : 1 <= Z.of_nat (strlen "/s") <= 504) by (simpl; lia).
  split; [exact Hopen|]. split.
  - destruct (sem_open_native_open_fails Example.SEM_VALUE_MAX Example.O_CREAT
                Example.O_EXCL example_sem_value_max "/s" 0 0 2 Example.w_empty _
                Hval Hlen eq_refl Hopen) as (_ & Hnone & _).
    apply Hnone; [right|]; reflexivity.
  - destruct (sem_open_native_open_fails Example.SEM_VALUE_MAX Example.O_CREAT
                Example.O_EXCL example_sem_value_max "/s" 256 0 2 Example.w_empty _
                Hval Hlen eq_refl Hopen) as (_ & _ & _ & Hnew).
    apply Hnew.
    + vm_compute. discriminate.
    + vm_compute. reflexivity.
    + reflexivity.
    + lia.
Defined.


Lemma failure_paths_release_example :
  (exists w',
     sem_init Example.SEM_VALUE_MAX Example.PTHREAD_PROCESS_PRIVATE 100 0 1
       Example.w_exhausted = Ret (-1) w' /\
     mem w' = mem Example.w_exhausted /\ handles w' = handles Example.w_exhausted /\
     errno w' = Some ENOSPC) /\
  (exists w',
     sem_open Example.SEM_VALUE_MAX Example.O_CREAT Example.O_EXCL "/s" 256 0 1
       Example.w_exhausted = Ret NULL w' /\
     mem w' = mem Example.w_exhausted /\ handles w' = handles Example.w_exhausted /\
     errno w' = Some ENOSPC).
Proof.
  destruct (failure_paths_release Example.SEM_VALUE_MAX Example.PTHREAD_PROCESS_PRIVATE
              Example.O_CREAT Example.O_EXCL example_sem_value_max) as [Hinit Hopen].
  split.
  - eexists. split; [vm_compute; reflexivity|].
    edestruct (Hinit 100 0 1 Example.w_exhausted) as [Hfail _];
      [vm_compute; reflexivity|].
    destruct Hfail as (_ & Hm & Hh & _); [discriminate|].
    split; [exact Hm|]. split; [exact Hh|]. reflexivity.
  - eexists. split; [vm_compute; reflexivity|].
    edestruct (Hopen "/s" 256 0 1 Example.w_exhausted) as [Hfail _];
      [vm_compute; reflexivity|].
    destruct Hfail as (Hm & Hh & _); [reflexivity|].
    split; [exact Hm|]. split; [exact Hh|]. reflexivity.
Defined.

(** ** The further properties on the example states *)

Lemma example_handle_zero : wraps 101 Example.w_zero 1 (Ksem 0 2147483647 None 1).
Proof.
  apply (wraps_all_access _ _ (Cell true 1)); [discriminate|vm_compute; reflexivity..].
Qed.

Lemma example_handle_two : wraps 101 Example.w_two 1 (Ksem 2 2147483647 None 1).
Proof.
  apply (wraps_all_access _ _ (Cell true 1)); [discriminate|vm_compute; reflexivity..].
Qed.

Lemma example_counts_bounded : counts_bounded Example.w_two.
Proof.
  intros id o H. unfold Example.w_two in H. cbn [objects] in H.
  apply lookup_singleton_Some in H as [_ <-]. cbn. lia.
Qed.

Lemma posts_then_waits_example :
  exists w1,
    repeat_call 3 (sem_post 101) Example.w_zero = Ret 0 w1 /\
    sem_count 101 w1 = Some 3 /\
    repeat_call 3 (sem_wait 101) w1 = Ret 0 Example.w_zero.
Proof.
  apply (posts_then_waits 101 Example.w_zero 1 (Ksem 0 2147483647 None 1) 3
           example_handle_zero); simpl; lia.
Defined.

Lemma trywait_drains_example :
  (exists w', repeat_call 2 (sem_trywait 101) Example.w_two = Ret 0 w' /\
              sem_count 101 w' = Some 0 /\ errno w' = errno Example.w_two) /\
  (exists w', repeat_call 3 (sem_trywait 101) Example.w_two = Ret (-1) w' /\
              sem_count 101 w' = Some 0 /\ errno w' = Some ETIMEDOUT).
Proof.
  split.
  - apply (trywait_drains 101 Example.w_two 1 (Ksem 2 2147483647 None 1) 2
             example_handle_two); simpl; lia.
  - apply (trywait_drains 101 Example.w_two 1 (Ksem 2 2147483647 None 1) 3
             example_handle_two); simpl; lia.
Defined.

Lemma waits_agree_example :
  (exists w', sem_trywait 101 Example.w_two = Ret 0 w' /\
              sem_wait 101 Example.w_two = Ret 0 w' /\
              sem_timedwait 101 (Timespec 5 0) Example.w_two = Ret 0 w' /\
              sem_count 101 w' = Some 1) /\
  sem_trywait 101 Example.w_zero = Ret (-1) (with_errno ETIMEDOUT Example.w_zero) /\
  sem_wait 101 Example.w_zero = Blocked.
Proof.
  split.
  - apply (waits_agree 101 (Timespec 5 0) Example.w_two 1 _ example_handle_two).
    simpl. lia.
  - apply (waits_agree 101 (Timespec 5 0) Example.w_zero 1 _ example_handle_zero).
    simpl. lia.
Defined.

Lemma sem_post_respects_maximum_example :
  exists w1,
    sem_init Example.SEM_VALUE_MAX Example.PTHREAD_PROCESS_PRIVATE 100
      Example.PTHREAD_PROCESS_PRIVATE Example.SEM_VALUE_MAX Example.w_empty = Ret 0 w1 /\
    exists pv w',
      c_val <$> mem w1 !! 100 = Some pv /\
      sem_post pv w1 = Ret (-1) w' /\ errno w' = Some EINVAL /\
      sem_count pv w' = Some Example.SEM_VALUE_MAX.
Proof.
  eexists. split; [vm_compute; reflexivity|].
  apply (proj2 (sem_post_respects_maximum Example.SEM_VALUE_MAX
                  Example.PTHREAD_PROCESS_PRIVATE example_sem_value_max))
    with (w := Example.w_empty) (c := Cell false 0).
  - vm_compute. reflexivity.
  - vm_compute. reflexivity.
Defined.

Lemma counts_stay_bounded_example :
  counts_bounded Example.w_two /\
  exists w', sem_post 101 Example.w_two = Ret 0 w' /\ counts_bounded w'.
Proof.
  split; [exact example_counts_bounded|].
  eexists. split; [vm_compute; reflexivity|].
  destruct (counts_stay_bounded Example.SEM_VALUE_MAX Example.PTHREAD_PROCESS_PRIVATE
              Example.O_CREAT Example.O_EXCL example_sem_value_max Example.w_two
              example_counts_bounded) as (_ & _ & Hpost & _).
  apply (Hpost 101 0). vm_compute. reflexivity.
Defined.

Lemma sem_destroy_returns_example :
  101 <> NULL /\
  mem Example.w_zero !! 101 = Some (Cell true 1) /\
  is_Some (handles Example.w_zero !! 1) /\
  sem_destroy 101 Example.w_zero = Undefined.
Proof.
  assert (Hc : mem Example.w_zero !! 101 = Some (Cell true 1)) by (vm_compute; reflexivity).
  assert (Hh : is_Some (handles Example.w_zero !! c_val (Cell true 1))).
  { exists (Handle 1 SEMAPHORE_ALL_ACCESS). vm_compute. reflexivity. }
  split; [discriminate|]. split; [exact Hc|]. split; [exact Hh|].
  destruct (sem_destroy_returns 101 Example.w_zero) as (_ & Hundef & _).
  apply (Hundef (Cell true 1)); [discriminate|exact Hc|exact Hh].
Defined.

Lemma new_handle_keeps_counts_example :
  sem_count 101 Example.w_zero = Some 0 /\
  exists w1,
    sem_init Example.SEM_VALUE_MAX Example.PTHREAD_PROCESS_PRIVATE 100
      Example.PTHREAD_PROCESS_PRIVATE 4 Example.w_zero = Ret 0 w1 /\
    sem_count 101 w1 = Some 0 /\ c_val <$> mem w1 !! 100 <> Some 101.
Proof.
  split; [vm_compute; reflexivity|].
  eexists. split; [vm_compute; reflexivity|].
  destruct (new_handle_keeps_counts Example.SEM_VALUE_MAX Example.PTHREAD_PROCESS_PRIVATE
              Example.O_CREAT Example.O_EXCL example_sem_value_max Example.w_zero)
    as [Hinit _].
  eapply (Hinit 100 Example.PTHREAD_PROCESS_PRIVATE 4).
  - vm_compute. reflexivity.
  - discriminate.
  - vm_compute. reflexivity.
Defined.

Lemma named_handles_share_example :
  exists pv1 w1 pv2 w2,
    sem_open Example.SEM_VALUE_MAX Example.O_CREAT Example.O_EXCL "/s" 256 0 1
      Example.w_empty = Ret pv1 w1 /\
    sem_open Example.SEM_VALUE_MAX Example.O_CREAT Example.O_EXCL "/s" 0 0 0 w1
    = Ret pv2 w2 /\
    pv1 <> NULL /\ pv2 <> NULL /\ pv1 <> pv2 /\
    sem_count pv1 w2 = Some 1 /\ sem_count pv2 w2 = Some 1 /\
    (1 < Example.SEM_VALUE_MAX ->
     exists w3, sem_post pv1 w2 = Ret 0 w3 /\ sem_count pv2 w3 = Some (1 + 1)) /\
    (1 < Example.SEM_VALUE_MAX ->
     exists w3, sem_post pv2 w2 = Ret 0 w3 /\ sem_count pv1 w3 = Some (1 + 1)) /\
    (0 < 1 ->
     exists w3, sem_trywait pv1 w2 = Ret 0 w3 /\ sem_count pv2 w3 = Some (1 - 1)) /\
    (let denied :=
       Ret (-1) (with_errno EPERM (with_last_error ERROR_ACCESS_DENIED w2)) in
     sem_trywait pv2 w2 = denied /\ sem_wait pv2 w2 = denied /\
     sem_timedwait pv2 (Timespec 2 0) w2 = denied).
Proof.
  apply (named_handles_share Example.SEM_VALUE_MAX Example.O_CREAT Example.O_EXCL
           example_sem_value_max "/s" 256 0 0 0 1 0 (Timespec 2 0) Example.w_empty).
  - unfold Example.SEM_VALUE_MAX. lia.
  - unfold Example.SEM_VALUE_MAX. lia.
  - simpl. lia.
  - reflexivity.
  - reflexivity.
  - vm_compute. reflexivity.
  - vm_compute. reflexivity.
  - vm_compute. discriminate.
  - left. reflexivity.
Defined.

Lemma sem_open_without_create_example :
  Z.land 0 Example.O_CREAT = 0 /\
  sem_open Example.SEM_VALUE_MAX Example.O_CREAT Example.O_EXCL "/s" 0 0 1
    Example.w_empty
  = Ret NULL (with_errno ENOENT (with_last_error ERROR_FILE_NOT_FOUND Example.w_empty)).
Proof.
  split; [reflexivity|].
  apply (sem_open_without_create Example.SEM_VALUE_MAX Example.O_CREAT Example.O_EXCL
           example_sem_value_max "/s" 0 0 1 Example.w_empty eq_refl).
  - unfold Example.SEM_VALUE_MAX. lia.
  - simpl. lia.
  - reflexivity.
  - vm_compute. reflexivity.
  - vm_compute. reflexivity.
Defined.

Lemma early_failures_example :
  sem_init Example.SEM_VALUE_MAX Example.PTHREAD_PROCESS_PRIVATE 100 1 0 Example.w_empty
  = Ret (-1) (with_errno EPERM Example.w_empty).
Proof.
  destruct (early_failures Example.SEM_VALUE_MAX Example.PTHREAD_PROCESS_PRIVATE
              Example.O_CREAT Example.O_EXCL example_sem_value_max Example.w_empty)
    as (_ & Hshared & _).
  apply Hshared.
  - discriminate.
  - unfold Example.SEM_VALUE_MAX. lia.
  - discriminate.
Defined.

Lemma sem_init_succeeds_iff_example :
  mem Example.w_empty !! 100 = Some (Cell false 0) /\
  (exists w1,
     sem_init Example.SEM_VALUE_MAX Example.PTHREAD_PROCESS_PRIVATE 100
       Example.PTHREAD_PROCESS_PRIVATE 7 Example.w_empty = Ret 0 w1) /\
  ~ (exists w1,
       sem_init Example.SEM_VALUE_MAX Example.PTHREAD_PROCESS_PRIVATE 100
         Example.PTHREAD_PROCESS_PRIVATE 7 Example.w_exhausted = Ret 0 w1).
Proof.
  assert (Hc : mem Example.w_empty !! 100 = Some (Cell false 0)) by (vm_compute; reflexivity).
  assert (Hc' : mem Example.w_exhausted !! 100 = Some (Cell false 0))
    by (vm_compute; reflexivity).
  assert (Hpos : 0 <= 7) by lia.
  split; [exact Hc|]. split.
  - apply (sem_init_succeeds_iff Example.SEM_VALUE_MAX Example.PTHREAD_PROCESS_PRIVATE
             example_sem_value_max 100 Example.PTHREAD_PROCESS_PRIVATE 7 Example.w_empty
             _ Hc Hpos).
    repeat split; try reflexivity; discriminate.
  - intros H.
    apply (sem_init_succeeds_iff Example.SEM_VALUE_MAX Example.PTHREAD_PROCESS_PRIVATE
             example_sem_value_max 100 Example.PTHREAD_PROCESS_PRIVATE 7
             Example.w_exhausted _ Hc' Hpos) in H.
    destruct H as (_ & _ & _ & _ & Hker). discriminate Hker.
Defined.

Lemma status_of_operations_example :
  exists w',
    sem_trywait 101 Example.w_zero = Ret (-1) w' /\
    mem w' = mem Example.w_zero /\ handles w' = handles Example.w_zero /\
    objects w' = objects Example.w_zero.
Proof.
  eexists. split; [vm_compute; reflexivity|].
  destruct (status_of_operations 101 (Timespec 0 0) Example.w_zero)
    as (_ & _ & Htry & _).
  edestruct (Htry (-1)) as (Hm & Hh & _ & _ & [[H0 _]|(_ & Ho & _)]);
    [vm_compute; reflexivity|discriminate H0|].
  split; [exact Hm|]. split; [exact Hh|exact Ho].
Defined.

Lemma kernel_name_of_name_example :
  (exists buffer,
     fill_buffer "/a" (to_int (Z.of_nat (strlen "/a"))) = Some buffer /\
     c_string buffer = Some (global_name "/a") /\
     String.length (global_name "/a") = (7 + strlen "/a")%nat) /\
  exists pv w1,
    sem_open Example.SEM_VALUE_MAX Example.O_CREAT Example.O_EXCL "/a" 256 0 1
      Example.w_empty = Ret pv w1 /\ pv <> NULL /\
    sem_open Example.SEM_VALUE_MAX Example.O_CREAT Example.O_EXCL "/b" 0 0 0 w1
    = Ret NULL (with_errno ENOENT (with_last_error ERROR_FILE_NOT_FOUND w1)).
Proof.
  destruct (kernel_name_of_name Example.SEM_VALUE_MAX Example.O_CREAT Example.O_EXCL
              example_sem_value_max "/a" "/b") as (Hbuffer & _ & Hdiffer);
    [simpl; lia|simpl; lia|].
  split; [exact Hbuffer|].
  apply (Hdiffer ltac:(intros H; vm_compute in H; discriminate H) 256 0 0 0 1 0
           Example.w_empty).
  - unfold Example.SEM_VALUE_MAX. lia.
  - unfold Example.SEM_VALUE_MAX. lia.
  - reflexivity.
  - reflexivity.
  - vm_compute. reflexivity.
  - vm_compute. reflexivity.
  - vm_compute. reflexivity.
  - vm_compute. reflexivity.
  - vm_compute. discriminate.
  - reflexivity.
Defined.
